(** * Stock Backtester: the performance metrics engine of [backtester.py]

    A shallow embedding of [calculate_metrics], of the normalisation step of
    [generate_chart] and of the fetch/compute loop of [main], followed by the
    properties the specification states about them.

    The second part embeds the prompts of [launcher.py] and the command
    line it builds, and states what the code of both files shows beyond the
    specification.

    Numbers.  The program computes on binary64 values held in pandas Series.
    The embedding uses exact real arithmetic ([R]) for every finite value and
    an explicit [NaN] for the missing value pandas produces on its own
    (the first entry of [pct_change], [std] of fewer than two observations,
    [min] of an empty Series).  Prices are the positive closing prices of a
    PriceSeries; a zero or negative price would bring in IEEE infinities and
    the non-real cases of [**], which this development leaves outside: the
    theorems that read a quotient by a price assume the prices positive.

    A value of the program is the binary64 rounding of the value of the
    embedding.  An equality or a strict inequality between two computed
    values can therefore hold here and fail in the program, where a quotient
    is rounded, a standard deviation of equal returns may leave a residue of
    1e-17, and a power may overflow.  The statements below are to be read up
    to this rounding; module [Binary64] runs the total return on machine
    floats where the difference decides a claim. *)

From Stdlib Require Import Reals Lra Lia List String ZArith Bool Sorted.
From Stdlib Require Import Ascii DecimalString DecimalPos DecimalZ.
From Stdlib Require Floats.
Import ListNotations.
Open Scope R_scope.

(** ** Values and errors *)

(** A float as pandas holds it: a finite real or the missing value. *)
Inductive float64 : Type :=
| NaN
| Fin (x : R).

(** The Python exceptions the code can meet. *)
Inductive exn : Type :=
| IndexError        (* single positional indexer is out-of-bounds *)
| ValueError (msg : string)
| AttributeError    (* a scalar has no [pct_change] *)
| DownloadError.    (* anything the data supplier raises *)

Inductive result (A : Type) : Type :=
| Ok (a : A)
| Raise (e : exn).
Arguments Ok {A} a.
Arguments Raise {A} e.

Definition bind {A B : Type} (m : result A) (f : A -> result B) : result B :=
  match m with
  | Ok a => f a
  | Raise e => Raise e
  end.

Notation "x <- m ;; k" := (bind m (fun x => k))
  (at level 61, m at next level, right associativity).

(** Lifting of a real function to floats: NaN propagates. *)
Definition fmap (f : R -> R) (v : float64) : float64 :=
  match v with
  | NaN => NaN
  | Fin x => Fin (f x)
  end.

(** ** The pandas operations the code calls *)

Module Pandas.

(** [len(s)] as a real number. *)
Definition len (s : list R) : R := INR (List.length s).

(** [s.iloc[i]] for an integer position, negative positions counting from
    the end; out of bounds raises IndexError. *)
Definition iloc (s : list R) (i : Z) : result R :=
  let n := Z.of_nat (List.length s) in
  if ((0 <=? i) && (i <? n))%Z then
    match nth_error s (Z.to_nat i) with
    | Some x => Ok x
    | None => Raise IndexError
    end
  else if ((- n <=? i) && (i <? 0))%Z then
    match nth_error s (Z.to_nat (n + i)) with
    | Some x => Ok x
    | None => Raise IndexError
    end
  else Raise IndexError.

(** [s.pct_change()]: no change is known for the first observation. *)
Fixpoint pct_from (prev : R) (s : list R) : list float64 :=
  match s with
  | [] => []
  | p :: rest => Fin (p / prev - 1) :: pct_from p rest
  end.

Definition pct_change (s : list R) : list float64 :=
  match s with
  | [] => []
  | p :: rest => NaN :: pct_from p rest
  end.

(** [s.dropna()] *)
Fixpoint dropna (s : list float64) : list R :=
  match s with
  | [] => []
  | NaN :: rest => dropna rest
  | Fin x :: rest => x :: dropna rest
  end.

Definition sum (s : list R) : R := fold_right Rplus 0 s.

(** [s.std()], with pandas' default [ddof = 1]: the mean, the squared
    deviations from it, their sum over [count - 1], the square root;
    NaN when [count <= ddof]. *)
Definition std (s : list R) : float64 :=
  match s with
  | [] | [_] => NaN
  | _ =>
      let count := len s in
      let avg := sum s / count in
      let sqr := map (fun x => (avg - x) ^ 2) s in
      Fin (sqrt (sum sqr / (count - 1)))
  end.

(** [s.cumprod()] and [s.cummax()]: running product and running maximum,
    one entry per entry of [s]. *)
Fixpoint cumprod_from (acc : R) (s : list R) : list R :=
  match s with
  | [] => []
  | x :: rest => (acc * x) :: cumprod_from (acc * x) rest
  end.

Definition cumprod (s : list R) : list R := cumprod_from 1 s.

Fixpoint cummax_from (acc : R) (s : list R) : list R :=
  match s with
  | [] => []
  | x :: rest => Rmax acc x :: cummax_from (Rmax acc x) rest
  end.

Definition cummax (s : list R) : list R :=
  match s with
  | [] => []
  | x :: rest => x :: cummax_from x rest
  end.

(** [s.min()]: NaN for an empty Series. *)
Definition min (s : list R) : float64 :=
  match s with
  | [] => NaN
  | x :: rest => Fin (fold_left Rmin rest x)
  end.

(** Elementwise arithmetic of two Series on the same index. *)
Fixpoint map2 (f : R -> R -> R) (a b : list R) : list R :=
  match a, b with
  | x :: a', y :: b' => f x y :: map2 f a' b'
  | _, _ => []
  end.

End Pandas.

(** ** Rounding to two decimals *)

(** The largest integer not above [x]. *)
Definition floorZ (x : R) : Z := (up x - 1)%Z.

(** Rounding to the nearest integer, ties to the even one. *)
Definition rint (x : R) : Z :=
  let f := floorZ x in
  let d := x - IZR f in
  if Rlt_dec d (1 / 2) then f
  else if Rlt_dec (1 / 2) d then (f + 1)%Z
  else if Z.even f then f else (f + 1)%Z.

(** [round(x, 2)] *)
Definition round2 (x : R) : R := IZR (rint (x * 100)) / 100.

(** ** calculate_metrics *)

Definition RISK_FREE_RATE : R := 4 / 100.

(** The dictionary [calculate_metrics] returns. *)
Record MetricsRecord : Type := {
  Ticker : string;
  Total_Return : float64;
  Annualized_Return : float64;
  Volatility : float64;
  Max_Drawdown : float64;
  Sharpe_Ratio : float64
}.

(** [daily_returns = prices.pct_change().dropna()] *)
Definition daily_returns (prices : list R) : list R :=
  Pandas.dropna (Pandas.pct_change prices).

(** [total_return = (prices.iloc[-1] / prices.iloc[0] - 1) * 100] *)
Definition total_return (prices : list R) : result R :=
  last_price <- Pandas.iloc prices (-1) ;;
  first_price <- Pandas.iloc prices 0 ;;
  Ok ((last_price / first_price - 1) * 100).

(** [years = len(prices) / 252] *)
Definition years (prices : list R) : R := Pandas.len prices / 252.

(** [annualized_return = ((1 + total_return / 100) ** (1 / years) - 1) * 100] *)
Definition annualized_return (prices : list R) (total : R) : R :=
  (Rpower (1 + total / 100) (1 / years prices) - 1) * 100.

(** [volatility = daily_returns.std() * (252 ** 0.5) * 100] *)
Definition volatility (prices : list R) : float64 :=
  fmap (fun s => s * sqrt 252 * 100) (Pandas.std (daily_returns prices)).

(** [cumulative = (1 + daily_returns).cumprod()] *)
Definition cumulative (prices : list R) : list R :=
  Pandas.cumprod (map (fun r => 1 + r) (daily_returns prices)).

(** [rolling_max = cumulative.cummax()] *)
Definition rolling_max (prices : list R) : list R :=
  Pandas.cummax (cumulative prices).

(** [drawdown = (cumulative - rolling_max) / rolling_max] *)
Definition drawdown (prices : list R) : list R :=
  Pandas.map2 (fun c m => (c - m) / m) (cumulative prices) (rolling_max prices).

(** [max_drawdown = drawdown.min() * 100] *)
Definition max_drawdown (prices : list R) : float64 :=
  fmap (fun d => d * 100) (Pandas.min (drawdown prices)).

(** [excess_return = annualized_return / 100 - RISK_FREE_RATE] *)
Definition excess_return (annualized : R) : R :=
  annualized / 100 - RISK_FREE_RATE.

(** [sharpe_ratio = excess_return / (volatility / 100) if volatility > 0 else 0];
    [nan > 0] is False. *)
Definition sharpe_ratio (annualized : R) (vol : float64) : R :=
  match vol with
  | Fin v => if Rlt_dec 0 v then excess_return annualized / (v / 100) else 0
  | NaN => 0
  end.

Definition calculate_metrics (prices : list R) (name : string)
  : result MetricsRecord :=
  total <- total_return prices ;;
  let annualized := annualized_return prices total in
  let vol := volatility prices in
  let mdd := max_drawdown prices in
  let sharpe := sharpe_ratio annualized vol in
  Ok {| Ticker := name;
        Total_Return := Fin (round2 total);
        Annualized_Return := Fin (round2 annualized);
        Volatility := fmap round2 vol;
        Max_Drawdown := fmap round2 mdd;
        Sharpe_Ratio := Fin (round2 sharpe) |}.

(** ** generate_chart: the normalised series *)

(** [normalized = prices / prices.iloc[0] * 100] *)
Definition normalized (prices : list R) : result (list R) :=
  first_price <- Pandas.iloc prices 0 ;;
  Ok (map (fun p => p / first_price * 100) prices).

(** A [dict] with string keys, in insertion order: assigning to a key already
    present replaces its value where it stands, a new key goes last. *)
Definition dict (V : Type) : Type := list (string * V).

Fixpoint dict_set {V : Type} (k : string) (v : V) (d : dict V) : dict V :=
  match d with
  | [] => [(k, v)]
  | (k', v') :: rest =>
      if String.eqb k k' then (k, v) :: rest
      else (k', v') :: dict_set k v rest
  end.

Definition keys {V : Type} (d : dict V) : list string := map fst d.

(** The lines [generate_chart] plots: for each item of [price_data], in the
    dictionary's order, the label and the normalised series. *)
Fixpoint generate_chart (price_data : dict (list R))
  : result (dict (list R)) :=
  match price_data with
  | [] => Ok []
  | (name, prices) :: rest =>
      line <- normalized prices ;;
      lines <- generate_chart rest ;;
      Ok ((name, line) :: lines)
  end.

(** ** main: fetching and computing per symbol *)

Inductive index_name : Type := SP500 | NASDAQ | DOW | RUSSELL2000.

(** The value of [--index] as typed on the command line. *)
Definition index_label (i : index_name) : string :=
  match i with
  | SP500 => "SP500"
  | NASDAQ => "NASDAQ"
  | DOW => "DOW"
  | RUSSELL2000 => "RUSSELL2000"
  end.

Definition INDEX_MAPPING (i : index_name) : string :=
  match i with
  | SP500 => "^GSPC"
  | NASDAQ => "^IXIC"
  | DOW => "^DJI"
  | RUSSELL2000 => "^RUT"
  end.

(** The parsed command line. *)
Record Args : Type := {
  tickers : list string;
  start : Z;
  end_ : Z;
  index : option index_name;
  output_dir : string
}.

(** A calendar date, year first. *)
Definition date : Type := (Z * Z * Z)%type.

(** What [Series.squeeze()] gives: a one-element Series collapses to its
    scalar. *)
Inductive squeezed : Type :=
| Scalar (x : R)
| Series (s : list R).

Definition squeeze (s : list R) : squeezed :=
  match s with
  | [x] => Scalar x
  | _ => Series s
  end.

(** What is printed for a symbol that is skipped:
    [Error fetching {label}: {e}]. *)
Definition error_log : Type := list (string * exn).

(** The state the two loops of [main] build up. *)
Record run_state : Type := {
  results : list MetricsRecord;
  price_data : dict (list R);
  errors : error_log
}.

Definition initial_state : run_state :=
  {| results := []; price_data := []; errors := [] |}.

(** How a run of [main] ends. *)
Inductive outcome : Type :=
| InvalidRange
    (* "Error: Start year (..) must be less than or equal to end year (..)" *)
| NoData (skipped : error_log)
    (* "No data to analyze. Exiting.": nothing displayed, saved or drawn *)
| Completed (table : list MetricsRecord) (chart : dict (list R))
            (skipped : error_log).
    (* display_results and save_csv on [table], generate_chart's lines *)

Section Runner.

(** The data supplier: [yf.download(ticker, start, end)], read as the
    frame's Close column; an empty list is an empty frame. *)
Variable download : string -> date -> date -> result (list R).

Definition fetch_data (ticker : string) (start_date end_date : date)
  : result (list R) :=
  data <- download ticker start_date end_date ;;
  match data with
  | [] => Raise (ValueError ("No data found for " ++ ticker))
  | _ => Ok data
  end.

(** The body of a [try] block of [main]: fetch, take the Close column,
    compute the metrics.  A scalar has no [pct_change]. *)
Definition attempt (symbol label : string) (start_date end_date : date)
  : result (MetricsRecord * list R) :=
  data <- fetch_data symbol start_date end_date ;;
  match squeeze data with
  | Scalar _ => Raise AttributeError
  | Series prices =>
      metrics <- calculate_metrics prices label ;;
      Ok (metrics, prices)
  end.

(** One [try]/[except Exception]: on success the metrics are appended and
    the prices stored under the label; on any exception the symbol is
    reported and the loop goes on. *)
Definition process (start_date end_date : date) (st : run_state)
  (symbol label : string) : run_state :=
  match attempt symbol label start_date end_date with
  | Ok (metrics, prices) =>
      {| results := results st ++ [metrics];
         price_data := dict_set label prices (price_data st);
         errors := errors st |}
  | Raise e =>
      {| results := results st;
         price_data := price_data st;
         errors := errors st ++ [(label, e)] |}
  end.

Definition main (args : Args) : result outcome :=
  if (end_ args <? start args)%Z then Ok InvalidRange
  else
    let start_date : date := (start args, 1, 1)%Z in
    let end_date : date := (end_ args, 12, 31)%Z in
    let st :=
      fold_left (fun st ticker => process start_date end_date st ticker ticker)
                (tickers args) initial_state in
    let st :=
      match index args with
      | Some i =>
          process start_date end_date st (INDEX_MAPPING i) (index_label i)
      | None => st
      end in
    match results st with
    | [] => Ok (NoData (errors st))
    | _ =>
        chart <- generate_chart (price_data st) ;;
        Ok (Completed (results st) chart (errors st))
    end.

End Runner.

(** ** The specification's formulas, for comparison *)

(** The cumulative growth path as the specification words it, from
    [c_0 = 1]: [c_i] is the product of [1 + r_j] for [j <= i]. *)
Definition spec_growth_path (prices : list R) : list R :=
  1 :: Pandas.cumprod (map (fun r => 1 + r) (daily_returns prices)).

(** The specification's maximum drawdown over that path. *)
Definition spec_max_drawdown (prices : list R) : float64 :=
  let c := spec_growth_path prices in
  let running_max := Pandas.cummax c in
  fmap (fun d => d * 100)
       (Pandas.min (Pandas.map2 (fun c m => (c - m) / m) c running_max)).

Definition is_ok {A : Type} (r : result A) : bool :=
  match r with
  | Ok _ => true
  | Raise _ => false
  end.

(** The runner's contract, for comparison with [main]: the requested
    symbols in input order, each with the label it is reported under, the
    benchmark last. *)
Definition requested (args : Args) : list (string * string) :=
  map (fun ticker => (ticker, ticker)) (tickers args) ++
  match index args with
  | Some i => [(INDEX_MAPPING i, index_label i)]
  | None => []
  end.

(** A symbol that was fetched and measured. *)
Record success : Type := {
  label_of : string;
  metrics_of : MetricsRecord;
  prices_of : list R
}.

Section Contract.

Variable download : string -> date -> date -> result (list R).
Variables start_date end_date : date.

(** The symbols that succeed, in the order requested. *)
Fixpoint successes (symbols : list (string * string)) : list success :=
  match symbols with
  | [] => []
  | (symbol, label) :: rest =>
      match attempt download symbol label start_date end_date with
      | Ok (metrics, prices) =>
          {| label_of := label; metrics_of := metrics; prices_of := prices |}
          :: successes rest
      | Raise _ => successes rest
      end
  end.

(** The symbols that fail, in the order requested, each with its error. *)
Fixpoint failures (symbols : list (string * string)) : error_log :=
  match symbols with
  | [] => []
  | (symbol, label) :: rest =>
      match attempt download symbol label start_date end_date with
      | Ok _ => failures rest
      | Raise e => (label, e) :: failures rest
      end
  end.

End Contract.

(** The sample standard deviation, dividing by [n - 1]. *)
Definition sample_std (xs : list R) : R :=
  let n := INR (List.length xs) in
  let mean := Pandas.sum xs / n in
  sqrt (Pandas.sum (map (fun x => (x - mean) ^ 2) xs) / (n - 1)).

(** The sign of a real number: -1, 0 or 1. *)
Definition sign (x : R) : Z :=
  if Rlt_dec x 0 then (-1)%Z else if Rlt_dec 0 x then 1%Z else 0%Z.

Definition sign_float (v : float64) : option Z :=
  match v with
  | NaN => None
  | Fin x => Some (sign x)
  end.

(** * The interactive launcher, [launcher.py]

    Strings are byte strings read as ASCII.  What the launcher prints is not
    modelled, only what it reads, returns and runs. *)

(** ** The string methods the launcher calls *)

Module PyStr.

(** [c.isspace()] on an ASCII character: tab to carriage return, the four
    separators 28 to 31, and the space. *)
Definition isspace (c : ascii) : bool :=
  let n := nat_of_ascii c in
  ((9 <=? n) && (n <=? 13) || (28 <=? n) && (n <=? 31) || (n =? 32))%nat.

Fixpoint lstrip (s : string) : string :=
  match s with
  | EmptyString => EmptyString
  | String c rest => if isspace c then lstrip rest else s
  end.

Fixpoint rstrip (s : string) : string :=
  match s with
  | EmptyString => EmptyString
  | String c rest =>
      match rstrip rest with
      | EmptyString => if isspace c then EmptyString else String c EmptyString
      | kept => String c kept
      end
  end.

(** [s.strip()] *)
Definition strip (s : string) : string := rstrip (lstrip s).

Definition upper_char (c : ascii) : ascii :=
  let n := nat_of_ascii c in
  if ((97 <=? n) && (n <=? 122))%nat then ascii_of_nat (n - 32) else c.

Definition lower_char (c : ascii) : ascii :=
  let n := nat_of_ascii c in
  if ((65 <=? n) && (n <=? 90))%nat then ascii_of_nat (n + 32) else c.

Fixpoint map_chars (f : ascii -> ascii) (s : string) : string :=
  match s with
  | EmptyString => EmptyString
  | String c rest => String (f c) (map_chars f rest)
  end.

(** [s.upper()] and [s.lower()] *)
Definition upper (s : string) : string := map_chars upper_char s.
Definition lower (s : string) : string := map_chars lower_char s.

(** [not s] *)
Definition is_empty (s : string) : bool :=
  match s with
  | EmptyString => true
  | String _ _ => false
  end.

(** [s.split()]: the maximal runs of characters that are not whitespace;
    [word] is the run being read. *)
Fixpoint split_from (word : string) (s : string) : list string :=
  match s with
  | EmptyString => if is_empty word then [] else [word]
  | String c rest =>
      if isspace c then
        if is_empty word then split_from EmptyString rest
        else word :: split_from EmptyString rest
      else split_from (word ++ String c EmptyString) rest
  end.

Definition split (s : string) : list string := split_from EmptyString s.

Definition digit_value (c : ascii) : option Z :=
  let n := nat_of_ascii c in
  if ((48 <=? n) && (n <=? 57))%nat then Some (Z.of_nat (n - 48)) else None.

(** The digits of a decimal literal, with single underscores allowed
    between digits; [after_digit] tells whether the previous character was
    a digit. *)
Fixpoint parse_digits (acc : Z) (after_digit : bool) (s : string)
  : option Z :=
  match s with
  | EmptyString => if after_digit then Some acc else None
  | String c rest =>
      match digit_value c with
      | Some d => parse_digits (10 * acc + d) true rest
      | None =>
          if (Ascii.eqb c "_" && after_digit)%bool
          then parse_digits acc false rest
          else None
      end
  end.

(** [int(s)]: surrounding whitespace, an optional sign, decimal digits;
    [None] for the ValueError.  (The cap on the number of digits that recent
    interpreters apply is left out: so long a number is no year either
    way.) *)
Definition int (s : string) : option Z :=
  match strip s with
  | String "+" digits => parse_digits 0 false digits
  | String "-" digits => option_map Z.opp (parse_digits 0 false digits)
  | digits => parse_digits 0 false digits
  end.

(** [str(n)] for an integer. *)
Definition str (n : Z) : string := NilZero.string_of_int (Z.to_int n).

(** Whether every character of [s] satisfies [p]. *)
Fixpoint all_chars (p : ascii -> bool) (s : string) : bool :=
  match s with
  | EmptyString => true
  | String c rest => p c && all_chars p rest
  end.

(** A ticker as [get_tickers] hands it on: not empty, without whitespace,
    without lower-case letters. *)
Definition is_ticker (t : string) : bool :=
  negb (is_empty t)
  && all_chars (fun c => negb (isspace c)) t
  && all_chars (fun c => Ascii.eqb (upper_char c) c) t.

End PyStr.

(** ** Reading from the terminal *)

Module Launcher.

(** What the user does at a prompt: types a line, or presses Ctrl-C. *)
Inductive key : Type :=
| Line (s : string)
| CtrlC.

(** Why a read did not return: the input ended, or Ctrl-C was pressed. *)
Inductive stop : Type :=
| EOFError
| KeyboardInterrupt.

(** The outcome of code that reads from the terminal: a value and the input
    still unread, or the exception that ended it. *)
Inductive reply (A : Type) : Type :=
| Got (a : A) (rest : list key)
| Stopped (e : stop).
Arguments Got {A} a rest.
Arguments Stopped {A} e.

(** [input(prompt)] *)
Definition input (stdin : list key) : reply string :=
  match stdin with
  | [] => Stopped EOFError
  | Line s :: rest => Got s rest
  | CtrlC :: _ => Stopped KeyboardInterrupt
  end.

(** [get_tickers]: asks until a line holds something other than
    whitespace. *)
Fixpoint get_tickers (stdin : list key) : reply (list string) :=
  match stdin with
  | [] => Stopped EOFError
  | CtrlC :: _ => Stopped KeyboardInterrupt
  | Line s :: rest =>
      let tickers_input := PyStr.upper (PyStr.strip s) in
      if negb (PyStr.is_empty tickers_input)
      then Got (PyStr.split tickers_input) rest
      else get_tickers rest
  end.

(** [if default:] for a default that is an integer or None. *)
Definition truthy (default : option Z) : bool :=
  match default with
  | Some d => negb (d =? 0)%Z
  | None => false
  end.

Section Clock.

(** [datetime.now().year] *)
Variable current_year : Z.

(** [get_year(prompt, default)] *)
Fixpoint get_year (default : option Z) (stdin : list key) : reply Z :=
  match stdin with
  | [] => Stopped EOFError
  | CtrlC :: _ => Stopped KeyboardInterrupt
  | Line s :: rest =>
      let year_input := PyStr.strip s in
      match default with
      | Some d =>
          if (truthy default && PyStr.is_empty year_input)%bool
          then Got d rest
          else
            match PyStr.int year_input with
            | Some year =>
                if ((1900 <=? year) && (year <=? current_year))%Z
                then Got year rest
                else get_year default rest
            | None => get_year default rest
            end
      | None =>
          match PyStr.int year_input with
          | Some year =>
              if ((1900 <=? year) && (year <=? current_year))%Z
              then Got year rest
              else get_year default rest
          | None => get_year default rest
          end
      end
  end.

(** The [while True] loop of [get_date_range] that asks for the end year
    until it is not before the start year.  Every turn reads at least one
    line, so the loop is written with a bound on its turns; [None] is the
    bound being reached. *)
Fixpoint get_end_year (turns : nat) (start_year : Z) (stdin : list key)
  : option (reply Z) :=
  match turns with
  | O => None
  | S turns' =>
      match get_year (Some (current_year - 1)%Z) stdin with
      | Stopped e => Some (Stopped e)
      | Got end_year rest =>
          if (start_year <=? end_year)%Z then Some (Got end_year rest)
          else get_end_year turns' start_year rest
      end
  end.

(** [get_date_range]: the start year, then the end year.  The bound given
    to the loop is one more than the number of lines left, which it cannot
    reach. *)
Definition get_date_range (stdin : list key) : reply (Z * Z) :=
  let default_start := (current_year - 5)%Z in
  match get_year (Some default_start) stdin with
  | Stopped e => Stopped e
  | Got start_year rest =>
      match get_end_year (S (List.length rest)) start_year rest with
      | Some (Got end_year rest') => Got (start_year, end_year) rest'
      | Some (Stopped e) => Stopped e
      | None => Stopped EOFError
      end
  end.

End Clock.

(** The [indices] dictionary of [get_index]; the outer [None] is a key that
    is not in it. *)
Definition indices (choice : string) : option (option string) :=
  if String.eqb choice "1" then Some (Some "SP500"%string)
  else if String.eqb choice "2" then Some (Some "NASDAQ"%string)
  else if String.eqb choice "3" then Some (Some "DOW"%string)
  else if String.eqb choice "4" then Some (Some "RUSSELL2000"%string)
  else if String.eqb choice "5" then Some None
  else None.

(** [get_index] *)
Fixpoint get_index (stdin : list key) : reply (option string) :=
  match stdin with
  | [] => Stopped EOFError
  | CtrlC :: _ => Stopped KeyboardInterrupt
  | Line s :: rest =>
      let choice := PyStr.strip s in
      let choice := if PyStr.is_empty choice then "1"%string else choice in
      match indices choice with
      | Some index => Got index rest
      | None => get_index rest
      end
  end.

(** [get_output_dir] *)
Definition get_output_dir (stdin : list key) : reply string :=
  match input stdin with
  | Stopped e => Stopped e
  | Got line rest =>
      let output_dir := PyStr.strip line in
      Got (if PyStr.is_empty output_dir then "output"%string else output_dir)
          rest
  end.

(** How [subprocess.run(cmd, check=True)] ends. *)
Inductive run_result : Type :=
| Exit0
| CalledProcessError
| OtherException.

(** What [confirm_and_run] did: the command it ran, if it ran one, and the
    boolean it returned. *)
Record confirmation : Type := {
  launched : option (list string);
  returned : bool
}.

Section Process.

(** [sys.executable], the path of backtester.py beside the launcher, and
    the operating system running a command. *)
Variable python : string.
Variable backtester_path : string.
Variable run : list string -> run_result.

(** The command line [confirm_and_run] builds. *)
Definition command (tickers : list string) (start_year end_year : Z)
  (index : option string) (output_dir : string) : list string :=
  [python; backtester_path; "--tickers"%string] ++ tickers
  ++ ["--start"; PyStr.str start_year;
      "--end"; PyStr.str end_year;
      "--output-dir"; output_dir]%string
  ++ match index with
     | Some i => if PyStr.is_empty i then [] else ["--index"%string; i]
     | None => []
     end.

(** [confirm_and_run] *)
Definition confirm_and_run (tickers : list string) (start_year end_year : Z)
  (index : option string) (output_dir : string) (stdin : list key)
  : reply confirmation :=
  match input stdin with
  | Stopped e => Stopped e
  | Got line rest =>
      let confirm := PyStr.lower (PyStr.strip line) in
      if (String.eqb confirm "" || String.eqb confirm "y"
          || String.eqb confirm "yes")%bool
      then
        let cmd := command tickers start_year end_year index output_dir in
        match run cmd with
        | Exit0 => Got {| launched := Some cmd; returned := true |} rest
        | CalledProcessError | OtherException =>
            Got {| launched := Some cmd; returned := false |} rest
        end
      else Got {| launched := None; returned := false |} rest
  end.

Variable current_year : Z.

(** How the launcher ends: its exit status and the command it ran, if
    any. *)
Record ending : Type := {
  exit_status : Z;
  ran : option (list string)
}.

(** [main]: Ctrl-C at any prompt exits with status 0, any other exception
    (the input ending) with status 1. *)
Definition main (stdin : list key) : ending :=
  let on_stop (e : stop) :=
    match e with
    | KeyboardInterrupt => {| exit_status := 0; ran := None |}
    | EOFError => {| exit_status := 1; ran := None |}
    end in
  match get_tickers stdin with
  | Stopped e => on_stop e
  | Got tickers stdin1 =>
      match get_date_range current_year stdin1 with
      | Stopped e => on_stop e
      | Got (start_year, end_year) stdin2 =>
          match get_index stdin2 with
          | Stopped e => on_stop e
          | Got index stdin3 =>
              match get_output_dir stdin3 with
              | Stopped e => on_stop e
              | Got output_dir stdin4 =>
                  match confirm_and_run tickers start_year end_year index
                                        output_dir stdin4 with
                  | Stopped e => on_stop e
                  | Got done _ =>
                      {| exit_status := 0; ran := launched done |}
                  end
              end
          end
      end
  end.

End Process.

End Launcher.

(** ** The files the backtester writes *)

(** [f"backtest_{start_year}_{end_year}.csv"], the name [save_csv] writes
    under the output directory. *)
Definition csv_filename (start_year end_year : Z) : string :=
  "backtest_" ++ PyStr.str start_year ++ "_" ++ PyStr.str end_year ++ ".csv".

(** [f"performance_{start_year}_{end_year}.png"], the name [generate_chart]
    saves the figure under, in the same directory. *)
Definition chart_filename (start_year end_year : Z) : string :=
  "performance_" ++ PyStr.str start_year ++ "_" ++ PyStr.str end_year
  ++ ".png".

(** ** The total return in binary64

    The same two lines of [calculate_metrics] on machine floats, to show
    what the rounding of the quotients does that exact arithmetic hides. *)

Module Binary64.

Import PrimFloat.
#[local] Open Scope float_scope.

(** Rounding to the nearest integer, ties to even, for a float below 2^52
    in absolute value: adding and removing 2^52 leaves the rounded value. *)
Definition rint (x : float) : float :=
  if ltb x 0 then x - 0x1p52 + 0x1p52 else x + 0x1p52 - 0x1p52.

(** [round(x, 2)] on a numpy float64: times 100, to the nearest integer,
    divided by 100. *)
Definition round2 (x : float) : float := rint (x * 100) / 100.

(** [total_return = (prices.iloc[-1] / prices.iloc[0] - 1) * 100] *)
Definition total_return (prices : list float) : result float :=
  match prices with
  | [] => Raise IndexError
  | first_price :: _ =>
      Ok ((last prices first_price / first_price - 1) * 100)
  end.

(** The "Total Return (%)" entry of the returned dictionary. *)
Definition Total_Return (prices : list float) : result float :=
  tr <- total_return prices ;; Ok (round2 tr).


End Binary64.

(** ** A concrete supplier *)

(** A supplier for the scenarios of the specification: data for AAPL, GOOG
    and the S&P 500, a single row for TSLA, nothing for any other symbol. *)
Definition scenario_download (ticker : string) (start_date end_date : date)
  : result (list R) :=
  if String.eqb ticker "AAPL" then Ok [100; 110; 99; 121]
  else if String.eqb ticker "GOOG" then Ok [50; 55]
  else if String.eqb ticker "^GSPC" then Ok [4000; 4100; 4050]
  else if String.eqb ticker "TSLA" then Ok [200]
  else Ok [].

Definition scenario_args (symbols : list string) (benchmark : option index_name)
  : Args :=
  {| tickers := symbols; start := 2020; end_ := 2024; index := benchmark;
     output_dir := "output" |}.

(** A supplier with data both for the share DOW and for the Dow Jones
    index, whose label on the command line is DOW as well. *)
Definition collision_download (ticker : string) (start_date end_date : date)
  : result (list R) :=
  if String.eqb ticker "DOW" then Ok [50; 55]
  else if String.eqb ticker "^DJI" then Ok [30000; 30300]
  else Ok [].

(** * Properties *)

(** ** Rounding *)

Lemma floorZ_spec (x : R) : IZR (floorZ x) <= x < IZR (floorZ x) + 1.
Proof.
  unfold floorZ. rewrite minus_IZR.
  destruct (archimed x) as [H1 H2]. lra.
Qed.

Lemma floorZ_unique (x : R) (z : Z) : IZR z <= x < IZR z + 1 -> floorZ x = z.
Proof.
  intros [H1 H2]. unfold floorZ.
  assert (Hup : (z + 1)%Z = up x).
  { apply tech_up; rewrite plus_IZR; lra. }
  rewrite <- Hup. lia.
Qed.

Lemma floorZ_IZR (z : Z) : floorZ (IZR z) = z.
Proof. apply floorZ_unique. lra. Qed.

Lemma rint_IZR (z : Z) : rint (IZR z) = z.
Proof.
  unfold rint. rewrite floorZ_IZR.
  destruct (Rlt_dec (IZR z - IZR z) (1 / 2)) as [_ | H]; [reflexivity | lra].
Qed.

(** A value with at most two decimals is its own rounding. *)
Lemma round2_hundredths (z : Z) : round2 (IZR z / 100) = IZR z / 100.
Proof.
  unfold round2.
  replace (IZR z / 100 * 100) with (IZR z) by lra.
  now rewrite rint_IZR.
Qed.

Lemma round2_0 : round2 0 = 0.
Proof.
  replace 0 with (IZR 0 / 100) at 1 by lra.
  rewrite round2_hundredths. lra.
Qed.

Lemma rint_nonpos (y : R) : y <= 0 -> (rint y <= 0)%Z.
Proof.
  intros Hy. unfold rint.
  destruct (floorZ_spec y) as [Hlo Hhi].
  assert (Hf : (floorZ y <= 0)%Z) by (apply le_IZR; lra).
  destruct (Rlt_dec (y - IZR (floorZ y)) (1 / 2)) as [_ | Hd]; [exact Hf|].
  assert (Hneq : floorZ y <> 0%Z).
  { intros E. rewrite E in Hd. lra. }
  destruct (Rlt_dec (1 / 2) (y - IZR (floorZ y))); [lia|].
  destruct (Z.even (floorZ y)); lia.
Qed.

Lemma rint_nonneg (y : R) : 0 <= y -> (0 <= rint y)%Z.
Proof.
  intros Hy. unfold rint.
  destruct (floorZ_spec y) as [Hlo Hhi].
  assert (Hf : (0 <= floorZ y)%Z).
  { assert (H : (-1 < floorZ y)%Z) by (apply lt_IZR; lra). lia. }
  destruct (Rlt_dec (y - IZR (floorZ y)) (1 / 2)); [exact Hf|].
  destruct (Rlt_dec (1 / 2) (y - IZR (floorZ y))); [lia|].
  destruct (Z.even (floorZ y)); lia.
Qed.

Lemma round2_nonpos (x : R) : x <= 0 -> round2 x <= 0.
Proof.
  intros Hx. unfold round2.
  assert (H : (rint (x * 100) <= 0)%Z) by (apply rint_nonpos; lra).
  apply IZR_le in H. lra.
Qed.

Lemma round2_nonneg (x : R) : 0 <= x -> 0 <= round2 x.
Proof.
  intros Hx. unfold round2.
  assert (H : (0 <= rint (x * 100))%Z) by (apply rint_nonneg; lra).
  apply IZR_le in H. lra.
Qed.

(** Anything closer to zero than half a hundredth is returned as zero. *)
Lemma round2_small (x : R) : - (1 / 200) < x < 1 / 200 -> round2 x = 0.
Proof.
  intros [Hlo Hhi]. unfold round2.
  assert (Hr : rint (x * 100) = 0%Z).
  { unfold rint. destruct (Rle_dec 0 x) as [Hpos | Hneg].
    - rewrite (floorZ_unique (x * 100) 0) by lra.
      destruct (Rlt_dec (x * 100 - 0) (1 / 2)); [reflexivity | lra].
    - rewrite (floorZ_unique (x * 100) (-1)) by lra.
      destruct (Rlt_dec (x * 100 - -1) (1 / 2)); [lra|].
      destruct (Rlt_dec (1 / 2) (x * 100 - -1)); [reflexivity | lra]. }
  rewrite Hr. lra.
Qed.

(** ** Positional access *)

Lemma iloc_first (p : R) (rest : list R) : Pandas.iloc (p :: rest) 0 = Ok p.
Proof.
  unfold Pandas.iloc.
  assert (H : ((0 <=? 0) && (0 <? Z.of_nat (List.length (p :: rest))))%Z = true).
  { apply andb_true_iff. split; [apply Z.leb_le | apply Z.ltb_lt]; simpl; lia. }
  rewrite H. reflexivity.
Qed.

Lemma nth_error_last (s : list R) (d : R) :
  s <> [] -> nth_error s (List.length s - 1) = Some (last s d).
Proof.
  induction s as [|x s IH]; [congruence|].
  intros _. destruct s as [|y s]; [reflexivity|].
  replace (List.length (x :: y :: s) - 1)%nat
    with (S (List.length (y :: s) - 1)) by (simpl; lia).
  cbn [nth_error]. rewrite IH by discriminate. reflexivity.
Qed.

Lemma iloc_last (s : list R) (d : R) :
  s <> [] -> Pandas.iloc s (-1) = Ok (last s d).
Proof.
  intros Hs. unfold Pandas.iloc.
  assert (Hn : (0 < List.length s)%nat).
  { destruct s; [congruence | simpl; lia]. }
  replace ((0 <=? -1)%Z) with false by reflexivity. cbn [andb].
  assert (H : ((- Z.of_nat (List.length s) <=? -1)
               && (-1 <? 0))%Z = true).
  { apply andb_true_iff. split; [apply Z.leb_le; lia | reflexivity]. }
  rewrite H.
  replace (Z.to_nat (Z.of_nat (List.length s) + -1)) with (List.length s - 1)%nat
    by lia.
  now rewrite (nth_error_last s d Hs).
Qed.

(** The total return of a non-empty series, read off its two ends. *)
Lemma total_return_ends (p : R) (rest : list R) :
  total_return (p :: rest) = Ok ((last (p :: rest) 0 / p - 1) * 100).
Proof.
  unfold total_return.
  rewrite (iloc_last (p :: rest) 0) by discriminate.
  rewrite iloc_first. reflexivity.
Qed.

(** ** The annualized return of a flat series *)

Lemma Rpower_one_base (y : R) : Rpower 1 y = 1.
Proof. unfold Rpower. rewrite ln_1, Rmult_0_r. apply exp_0. Qed.

Lemma annualized_return_flat (prices : list R) :
  annualized_return prices 0 = 0.
Proof.
  unfold annualized_return.
  replace (1 + 0 / 100) with 1 by lra.
  rewrite Rpower_one_base. lra.
Qed.

(** ** Series shorter than two points *)

Lemma calculate_metrics_empty (name : string) :
  calculate_metrics [] name = Raise IndexError.
Proof. reflexivity. Qed.

Lemma total_return_single (p : R) : p <> 0 -> total_return [p] = Ok 0.
Proof.
  intros Hp. rewrite total_return_ends. cbn [last].
  f_equal. field. exact Hp.
Qed.

(** C1, as stated, fails: a one-point series makes [calculate_metrics]
    return a record, not raise. *)
Lemma C1_single_point_returns_record :
  exists m, calculate_metrics [100] "AAPL" = Ok m.
Proof.
  unfold calculate_metrics.
  rewrite total_return_single by lra.
  simpl. eexists. reflexivity.
Qed.

(** C1, amended: [calculate_metrics] raises only on the empty series (the
    IndexError of [iloc]); on a series of one point it returns the record
    with total return, annualized return and Sharpe ratio 0 and with
    volatility and maximum drawdown NaN. *)
Theorem C1_short_series (name : string) :
  calculate_metrics [] name = Raise IndexError /\
  forall p : R, p <> 0 ->
    calculate_metrics [p] name =
    Ok {| Ticker := name;
          Total_Return := Fin 0;
          Annualized_Return := Fin 0;
          Volatility := NaN;
          Max_Drawdown := NaN;
          Sharpe_Ratio := Fin 0 |}.
Proof.
  split; [reflexivity|].
  intros p Hp. unfold calculate_metrics.
  rewrite total_return_single by exact Hp.
  cbn [bind]. rewrite annualized_return_flat.
  unfold volatility, max_drawdown, daily_returns, drawdown, cumulative,
    rolling_max.
  cbn. rewrite round2_0. reflexivity.
Qed.

Lemma C1_short_series_witness :
  calculate_metrics [] "AAPL" = Raise IndexError /\
  calculate_metrics [100] "AAPL" =
    Ok {| Ticker := "AAPL";
          Total_Return := Fin 0;
          Annualized_Return := Fin 0;
          Volatility := NaN;
          Max_Drawdown := NaN;
          Sharpe_Ratio := Fin 0 |}.
Proof.
  split.
  - apply (C1_short_series "AAPL").
  - apply (proj2 (C1_short_series "AAPL") 100). lra.
Defined.

(** ** Evaluation on concrete series *)

(** Closes a goal about concrete reals, deciding each [Rmax] and [Rmin]. *)
Ltac real_value :=
  repeat match goal with
         | |- context [Rmin ?a ?b] =>
             first [ rewrite (Rmin_left a b) by lra
                   | rewrite (Rmin_right a b) by lra ]
         | |- context [Rmax ?a ?b] =>
             first [ rewrite (Rmax_left a b) by lra
                   | rewrite (Rmax_right a b) by lra ]
         end;
  lra.

(** Proves two concrete lists of reals equal entry by entry. *)
Ltac real_list :=
  repeat first
    [ reflexivity
    | apply (f_equal2 (@cons R)); [real_value|] ].

(** C5: on [100, 110, 99, 121] the daily returns are 0.10, -0.10 and 2/9,
    the total return is 21 and the maximum drawdown is -10, found at the
    third price, where the growth path 0.99 is a tenth below the running
    maximum 1.10; the returned record holds 21.0 and -10.0. *)
Theorem C5_worked_example :
  let prices := [100; 110; 99; 121] in
  daily_returns prices = [1 / 10; - (1 / 10); 2 / 9] /\
  total_return prices = Ok 21 /\
  cumulative prices = [11 / 10; 99 / 100; 121 / 100] /\
  rolling_max prices = [11 / 10; 11 / 10; 121 / 100] /\
  drawdown prices = [0; - (1 / 10); 0] /\
  max_drawdown prices = Fin (- 10) /\
  exists m, calculate_metrics prices "AAPL" = Ok m /\
            Total_Return m = Fin 21 /\
            Max_Drawdown m = Fin (- 10).
Proof.
  intros prices.
  assert (Hret : daily_returns prices = [1 / 10; - (1 / 10); 2 / 9]).
  { unfold prices, daily_returns. cbn. real_list. }
  assert (Htot : total_return prices = Ok 21).
  { unfold prices. rewrite total_return_ends. cbn [last]. f_equal. lra. }
  assert (Hcum : cumulative prices = [11 / 10; 99 / 100; 121 / 100]).
  { unfold cumulative. rewrite Hret. cbn. real_list. }
  assert (Hmax : rolling_max prices = [11 / 10; 11 / 10; 121 / 100]).
  { unfold rolling_max. rewrite Hcum. cbn. real_list. }
  assert (Hdd : drawdown prices = [0; - (1 / 10); 0]).
  { unfold drawdown. rewrite Hcum, Hmax. cbn. real_list. }
  assert (Hmdd : max_drawdown prices = Fin (- 10)).
  { unfold max_drawdown. rewrite Hdd. cbn. f_equal. real_value. }
  repeat split; try assumption.
  unfold calculate_metrics. rewrite Htot. cbn [bind].
  eexists. split; [reflexivity|]. cbn [Total_Return Max_Drawdown].
  rewrite Hmdd. cbn [fmap]. split; f_equal.
  - replace 21 with (IZR 2100 / 100) by lra. apply round2_hundredths.
  - replace (- 10) with (IZR (-1000) / 100) by lra. apply round2_hundredths.
Qed.

(** C2: the growth path the code builds starts at the first return, so a
    fall on the first day is measured against itself.  On [100, 90] the code
    finds a maximum drawdown of 0 where the specification's path, which
    starts at 1, gives -10; on [100, 90, 80, 70] it finds -200/9 (-22.2)
    where the fall from the first price is -30. *)
Theorem C2_first_decline_not_counted :
  max_drawdown [100; 90] = Fin 0 /\
  spec_max_drawdown [100; 90] = Fin (- 10) /\
  (exists m, calculate_metrics [100; 90] "AAPL" = Ok m /\
             Max_Drawdown m = Fin 0) /\
  max_drawdown [100; 90; 80; 70] = Fin (- (200 / 9)) /\
  spec_max_drawdown [100; 90; 80; 70] = Fin (- 30).
Proof.
  assert (H2 : max_drawdown [100; 90] = Fin 0).
  { unfold max_drawdown, drawdown, rolling_max, cumulative, daily_returns.
    cbn. f_equal. lra. }
  split; [exact H2|]. split.
  { unfold spec_max_drawdown, spec_growth_path, daily_returns.
    cbn. f_equal. real_value. }
  split.
  { unfold calculate_metrics.
    assert (Ht : total_return [100; 90] = Ok (- 10)).
    { rewrite total_return_ends. cbn [last]. f_equal. lra. }
    rewrite Ht. cbn [bind]. eexists. split; [reflexivity|].
    cbn [Max_Drawdown]. rewrite H2. cbn [fmap]. now rewrite round2_0. }
  split.
  - unfold max_drawdown, drawdown, rolling_max, cumulative, daily_returns.
    cbn. f_equal. real_value.
  - unfold spec_max_drawdown, spec_growth_path, daily_returns.
    cbn. f_equal. real_value.
Qed.

(** ** Normalisation *)

Lemma normalized_cons (p : R) (rest : list R) :
  normalized (p :: rest) = Ok (map (fun q => q / p * 100) (p :: rest)).
Proof. unfold normalized. now rewrite iloc_first. Qed.

(** C8: the normalised series of a non-empty price series is the elementwise
    map [p_i / p_0 * 100], whatever the other prices are, and its first value
    is exactly 100. *)
Theorem C8_normalized_elementwise (p0 : R) (rest : list R) :
  p0 <> 0 ->
  normalized (p0 :: rest) = Ok (map (fun p => p / p0 * 100) (p0 :: rest)) /\
  (forall i p, nth_error (p0 :: rest) i = Some p ->
     exists l, normalized (p0 :: rest) = Ok l /\
               nth_error l i = Some (p / p0 * 100)) /\
  exists tail, normalized (p0 :: rest) = Ok (100 :: tail).
Proof.
  intros Hp0. rewrite normalized_cons. split; [reflexivity|]. split.
  - intros i p Hi. eexists. split; [reflexivity|].
    rewrite nth_error_map, Hi. reflexivity.
  - exists (map (fun p => p / p0 * 100) rest). cbn [map].
    do 2 f_equal. field. exact Hp0.
Qed.

Lemma C8_normalized_elementwise_witness :
  normalized [50; 55; 45] = Ok (map (fun p => p / 50 * 100) [50; 55; 45]) /\
  (forall i p, nth_error [50; 55; 45] i = Some p ->
     exists l, normalized [50; 55; 45] = Ok l /\
               nth_error l i = Some (p / 50 * 100)) /\
  exists tail, normalized [50; 55; 45] = Ok (100 :: tail).
Proof. apply (C8_normalized_elementwise 50 [55; 45]). lra. Defined.

(** ** Multiplying every price by a constant *)

Lemma pct_from_scale (c prev : R) (s : list R) :
  c <> 0 -> prev <> 0 -> Forall (fun p => p <> 0) s ->
  Pandas.pct_from (c * prev) (map (Rmult c) s) = Pandas.pct_from prev s.
Proof.
  intros Hc. revert prev.
  induction s as [|p s IH]; intros prev Hprev Hs; [reflexivity|].
  inversion Hs as [|? ? Hp Hs']; subst.
  cbn [map Pandas.pct_from]. rewrite IH by assumption.
  do 2 f_equal. field. split; assumption.
Qed.

Lemma daily_returns_scale (c : R) (prices : list R) :
  c <> 0 -> Forall (fun p => p <> 0) prices ->
  daily_returns (map (Rmult c) prices) = daily_returns prices.
Proof.
  intros Hc Hs. destruct prices as [|p rest]; [reflexivity|].
  inversion Hs; subst.
  unfold daily_returns. cbn [map Pandas.pct_change Pandas.dropna].
  now rewrite pct_from_scale.
Qed.

Lemma last_map_scale (c : R) (s : list R) :
  last (map (Rmult c) s) 0 = c * last s 0.
Proof.
  induction s as [|x s IH]; [cbn; lra|].
  destruct s as [|y s]; [reflexivity|].
  change (last (map (Rmult c) (y :: s)) 0 = c * last (y :: s) 0).
  exact IH.
Qed.

Lemma total_return_scale (c : R) (prices : list R) :
  c <> 0 -> Forall (fun p => p <> 0) prices ->
  total_return (map (Rmult c) prices) = total_return prices.
Proof.
  intros Hc Hs. destruct prices as [|p rest]; [reflexivity|].
  inversion Hs; subst.
  change (map (Rmult c) (p :: rest)) with (c * p :: map (Rmult c) rest).
  rewrite !total_return_ends.
  change (c * p :: map (Rmult c) rest) with (map (Rmult c) (p :: rest)).
  rewrite last_map_scale. f_equal. field. split; assumption.
Qed.

Lemma positive_nonzero (s : list R) :
  Forall (Rlt 0) s -> Forall (fun p => p <> 0) s.
Proof. apply Forall_impl. intros p Hp. lra. Qed.

(** In exact arithmetic, multiplying every price by a positive constant
    changes no metric and does not change the normalised series. *)
Lemma scale_invariance_in_exact_arithmetic (c : R) (prices : list R)
  (name : string) :
  0 < c -> Forall (Rlt 0) prices ->
  calculate_metrics (map (Rmult c) prices) name = calculate_metrics prices name
  /\ normalized (map (Rmult c) prices) = normalized prices.
Proof.
  intros Hc Hpos.
  assert (Hc0 : c <> 0) by lra.
  pose proof (positive_nonzero prices Hpos) as Hnz.
  split.
  - unfold calculate_metrics.
    rewrite total_return_scale by assumption.
    unfold annualized_return, years, Pandas.len, volatility, max_drawdown,
      drawdown, rolling_max, cumulative.
    rewrite daily_returns_scale by assumption.
    now rewrite length_map.
  - destruct prices as [|p rest]; [reflexivity|].
    inversion Hnz as [|? ? Hp Hrest]; subst.
    change (map (Rmult c) (p :: rest)) with (c * p :: map (Rmult c) rest).
    rewrite !normalized_cons. f_equal.
    change (c * p :: map (Rmult c) rest) with (map (Rmult c) (p :: rest)).
    rewrite map_map. apply map_ext. intros q. field. split; assumption.
Qed.



Module Binary64Facts.

Import PrimFloat.
#[local] Open Scope float_scope.


End Binary64Facts.

(** ** The growth path and its drawdown *)

Lemma fold_left_Rmin_le (s : list R) (x : R) : fold_left Rmin s x <= x.
Proof.
  revert x. induction s as [|y s IH]; intros x; cbn [fold_left]; [lra|].
  eapply Rle_trans; [apply IH | apply Rmin_l].
Qed.

Lemma fold_left_Rmin_zeros (s : list R) :
  Forall (fun d => d = 0) s -> fold_left Rmin s 0 = 0.
Proof.
  induction 1 as [|d s Hd _ IH]; [reflexivity|].
  cbn [fold_left]. subst d. rewrite Rmin_left by lra. exact IH.
Qed.

(** The product of [1 + r] over the returns telescopes to a price ratio. *)
Lemma cumprod_from_ratio (acc prev : R) (s : list R) :
  prev <> 0 -> Forall (fun p => p <> 0) s ->
  Pandas.cumprod_from acc
    (map (fun r => 1 + r) (Pandas.dropna (Pandas.pct_from prev s)))
  = map (fun p => acc * p / prev) s.
Proof.
  revert acc prev.
  induction s as [|p s IH]; intros acc prev Hprev Hs; [reflexivity|].
  inversion Hs as [|? ? Hp Hs']; subst.
  cbn [Pandas.pct_from Pandas.dropna map Pandas.cumprod_from].
  rewrite IH by assumption.
  apply (f_equal2 (@cons R)); [field; exact Hprev|].
  apply map_ext. intros q. field. split; assumption.
Qed.

Lemma cumulative_ratio (p0 : R) (rest : list R) :
  Forall (fun p => p <> 0) (p0 :: rest) ->
  cumulative (p0 :: rest) = map (fun p => p / p0) rest.
Proof.
  intros Hs. inversion Hs; subst.
  unfold cumulative, daily_returns, Pandas.cumprod.
  cbn [Pandas.pct_change Pandas.dropna].
  rewrite cumprod_from_ratio by assumption.
  apply map_ext. intros q. field. assumption.
Qed.

(** The first entry of the drawdown series is 0: the path starts at its own
    running maximum. *)
Lemma drawdown_of_path (c : R) (cs : list R) :
  Pandas.map2 (fun c m => (c - m) / m) (c :: cs) (Pandas.cummax (c :: cs))
  = (c - c) / c
    :: Pandas.map2 (fun c m => (c - m) / m) cs (Pandas.cummax_from c cs).
Proof. reflexivity. Qed.

Lemma max_drawdown_of_path (p0 p1 : R) (rest : list R) :
  Forall (fun p => p <> 0) (p0 :: p1 :: rest) ->
  max_drawdown (p0 :: p1 :: rest) =
  Fin (fold_left Rmin
         (Pandas.map2 (fun c m => (c - m) / m)
            (map (fun p => p / p0) rest)
            (Pandas.cummax_from (p1 / p0) (map (fun p => p / p0) rest)))
         0 * 100).
Proof.
  intros Hs. unfold max_drawdown, drawdown, rolling_max.
  rewrite cumulative_ratio by assumption.
  cbn [map]. rewrite drawdown_of_path. cbn [Pandas.min fmap].
  do 3 f_equal. lra.
Qed.

Lemma max_drawdown_nonpos (prices : list R) :
  Forall (Rlt 0) prices -> (2 <= List.length prices)%nat ->
  exists d, max_drawdown prices = Fin d /\ d <= 0.
Proof.
  intros Hpos Hlen.
  destruct prices as [|p0 [|p1 rest]]; try (simpl in Hlen; lia).
  rewrite max_drawdown_of_path by (apply positive_nonzero; assumption).
  eexists. split; [reflexivity|].
  match goal with |- fold_left Rmin ?l 0 * 100 <= 0 =>
    pose proof (fold_left_Rmin_le l 0) end.
  lra.
Qed.

Lemma cummax_from_nondecreasing (s : list R) (acc : R) :
  Sorted Rle (acc :: s) -> Pandas.cummax_from acc s = s.
Proof.
  revert acc. induction s as [|x s IH]; intros acc Hs; [reflexivity|].
  apply Sorted_inv in Hs as [Hs Hhd]. apply HdRel_inv in Hhd.
  cbn [Pandas.cummax_from]. rewrite Rmax_right by lra.
  now rewrite IH.
Qed.

Lemma Sorted_map_ratio (p0 : R) (s : list R) :
  0 < p0 -> Sorted Rle s -> Sorted Rle (map (fun p => p / p0) s).
Proof.
  intros Hp0. induction 1 as [|x s Hs IH Hhd]; [constructor|].
  cbn [map]. constructor; [exact IH|].
  destruct Hhd as [|y s' Hxy]; constructor.
  apply Rmult_le_compat_r; [|exact Hxy].
  apply Rlt_le, Rinv_0_lt_compat, Hp0.
Qed.

Lemma Sorted_Rlt_Rle (s : list R) : Sorted Rlt s -> Sorted Rle s.
Proof.
  induction 1 as [|x s Hs IH Hhd]; constructor; [exact IH|].
  destruct Hhd; constructor. now apply Rlt_le.
Qed.

Lemma map2_diagonal_zero (s : list R) :
  Forall (fun d => d = 0) (Pandas.map2 (fun c m => (c - m) / m) s s).
Proof.
  induction s as [|x s IH]; cbn [Pandas.map2]; constructor; [|exact IH].
  unfold Rdiv. rewrite Rminus_diag. apply Rmult_0_l.
Qed.

(** A series that never falls has no drawdown. *)
Lemma max_drawdown_nondecreasing (prices : list R) :
  Forall (Rlt 0) prices -> (2 <= List.length prices)%nat ->
  Sorted Rle prices -> max_drawdown prices = Fin 0.
Proof.
  intros Hpos Hlen Hinc.
  destruct prices as [|p0 [|p1 rest]]; try (simpl in Hlen; lia).
  rewrite max_drawdown_of_path by (apply positive_nonzero; assumption).
  assert (Hp0 : 0 < p0) by (inversion Hpos; assumption).
  apply Sorted_inv in Hinc as [Hinc _].
  apply (Sorted_map_ratio p0) in Hinc; [|exact Hp0]. cbn [map] in Hinc.
  rewrite cummax_from_nondecreasing by exact Hinc.
  rewrite fold_left_Rmin_zeros by apply map2_diagonal_zero.
  f_equal. lra.
Qed.

Lemma max_drawdown_increasing (prices : list R) :
  Forall (Rlt 0) prices -> (2 <= List.length prices)%nat ->
  Sorted Rlt prices -> max_drawdown prices = Fin 0.
Proof.
  intros Hpos Hlen Hinc.
  apply max_drawdown_nondecreasing; auto using Sorted_Rlt_Rle.
Qed.

(** ** Signs *)

Lemma sign_scale (x k : R) : 0 < k -> sign (x * k) = sign x.
Proof.
  intros Hk. unfold sign.
  destruct (Rlt_dec (x * k) 0) as [H1 | H1], (Rlt_dec x 0) as [H2 | H2];
    try reflexivity; try (exfalso; nra).
  destruct (Rlt_dec 0 (x * k)) as [H3 | H3], (Rlt_dec 0 x) as [H4 | H4];
    try reflexivity; exfalso; nra.
Qed.

Lemma total_return_sign (p0 : R) (rest : list R) :
  0 < p0 ->
  sign ((last (p0 :: rest) 0 / p0 - 1) * 100)
  = sign (last (p0 :: rest) 0 - p0).
Proof.
  intros Hp0.
  replace ((last (p0 :: rest) 0 / p0 - 1) * 100)
    with ((last (p0 :: rest) 0 - p0) * (100 / p0)) by (field; lra).
  apply sign_scale. apply Rdiv_lt_0_compat; lra.
Qed.

(** Rounding keeps the sign or gives zero. *)
Lemma sign_round2 (x : R) : sign (round2 x) = sign x \/ round2 x = 0.
Proof.
  destruct (Rtotal_order x 0) as [Hneg | [Hzero | Hpos]].
  - pose proof (round2_nonpos x ltac:(lra)) as H.
    destruct (Req_dec (round2 x) 0) as [E | E]; [now right | left].
    unfold sign.
    destruct (Rlt_dec (round2 x) 0); [|lra].
    destruct (Rlt_dec x 0); [reflexivity | lra].
  - right. subst x. apply round2_0.
  - pose proof (round2_nonneg x ltac:(lra)) as H.
    destruct (Req_dec (round2 x) 0) as [E | E]; [now right | left].
    unfold sign.
    destruct (Rlt_dec (round2 x) 0); [lra|].
    destruct (Rlt_dec x 0); [lra|].
    destruct (Rlt_dec 0 (round2 x)); [|lra].
    destruct (Rlt_dec 0 x); [reflexivity | lra].
Qed.

(** C9, as stated, fails: a rise of one part in 100000 is a total return of
    0.001, which is returned as 0.0, whose sign is not that of
    [p_last - p_first]. *)
Lemma C9_small_rise_returned_as_zero :
  exists m, calculate_metrics [100000; 100001] "AAPL" = Ok m /\
            Total_Return m = Fin 0 /\
            sign_float (Total_Return m) <> Some (sign (100001 - 100000)).
Proof.
  unfold calculate_metrics. rewrite total_return_ends. cbn [last bind].
  eexists. split; [reflexivity|]. cbn [Total_Return].
  rewrite round2_small by lra.
  split; [reflexivity|]. cbn [sign_float]. unfold sign.
  destruct (Rlt_dec 0 0); [lra|].
  destruct (Rlt_dec (100001 - 100000) 0); [lra|].
  destruct (Rlt_dec 0 (100001 - 100000)); [discriminate | lra].
Qed.

(** C9, amended: for a series of at least two positive prices the maximum
    drawdown, computed and returned, is at most 0; the total return before
    its rounding to two decimals has the sign of [p_last - p_first], and the
    returned, rounded total return has that sign or is 0; for a strictly
    increasing series the maximum drawdown is exactly 0. *)
Theorem C9_drawdown_and_sign (prices : list R) (name : string) :
  Forall (Rlt 0) prices -> (2 <= List.length prices)%nat ->
  exists m tr d,
    calculate_metrics prices name = Ok m /\
    total_return prices = Ok tr /\
    max_drawdown prices = Fin d /\
    d <= 0 /\
    Max_Drawdown m = Fin (round2 d) /\ round2 d <= 0 /\
    sign tr = sign (last prices 0 - hd 0 prices) /\
    Total_Return m = Fin (round2 tr) /\
    (sign (round2 tr) = sign (last prices 0 - hd 0 prices) \/ round2 tr = 0) /\
    (Sorted Rlt prices -> d = 0 /\ Max_Drawdown m = Fin 0).
Proof.
  intros Hpos Hlen.
  destruct (max_drawdown_nonpos prices Hpos Hlen) as [d [Hd Hle]].
  destruct prices as [|p0 rest]; [simpl in Hlen; lia|].
  assert (Hp0 : 0 < p0) by (inversion Hpos; assumption).
  pose proof (total_return_sign p0 rest Hp0) as Hsign.
  unfold calculate_metrics. rewrite total_return_ends. cbn [bind].
  eexists. exists ((last (p0 :: rest) 0 / p0 - 1) * 100), d.
  split; [reflexivity|]. split; [reflexivity|]. split; [exact Hd|].
  split; [exact Hle|]. cbn [Max_Drawdown Total_Return hd].
  rewrite Hd. cbn [fmap].
  split; [reflexivity|]. split; [now apply round2_nonpos|].
  split; [exact Hsign|]. split; [reflexivity|]. split.
  - rewrite <- Hsign. apply sign_round2.
  - intros Hinc.
    rewrite (max_drawdown_increasing _ Hpos Hlen Hinc) in Hd.
    injection Hd as <-. now rewrite round2_0.
Qed.

Lemma C9_drawdown_and_sign_witness :
  exists m tr d,
    calculate_metrics [100; 110; 99] "AAPL" = Ok m /\
    total_return [100; 110; 99] = Ok tr /\
    max_drawdown [100; 110; 99] = Fin d /\
    d <= 0 /\
    Max_Drawdown m = Fin (round2 d) /\ round2 d <= 0 /\
    sign tr = sign (last [100; 110; 99] 0 - hd 0 [100; 110; 99]) /\
    Total_Return m = Fin (round2 tr) /\
    (sign (round2 tr) = sign (last [100; 110; 99] 0 - hd 0 [100; 110; 99])
     \/ round2 tr = 0) /\
    (Sorted Rlt [100; 110; 99] -> d = 0 /\ Max_Drawdown m = Fin 0).
Proof.
  apply (C9_drawdown_and_sign [100; 110; 99] "AAPL").
  - repeat constructor; lra.
  - simpl. lia.
Defined.

(** ** Volatility and the Sharpe ratio *)

Lemma volatility_nonneg (prices : list R) (v : R) :
  volatility prices = Fin v -> 0 <= v.
Proof.
  unfold volatility, Pandas.std.
  destruct (daily_returns prices) as [|r1 [|r2 rs]]; try discriminate.
  cbn [fmap]. intros H. injection H as <-.
  apply Rmult_le_pos; [|lra].
  apply Rmult_le_pos; apply sqrt_pos.
Qed.

(** On [1, 100, 1] the volatility is a large positive number. *)
Lemma volatility_swing :
  exists v, volatility [1; 100; 1] = Fin v /\ 105000 <= v.
Proof.
  assert (Hret : daily_returns [1; 100; 1] = [99; - (99 / 100)]).
  { unfold daily_returns. cbn. real_list. }
  unfold volatility. rewrite Hret. unfold Pandas.std. cbn [fmap].
  eexists. split; [reflexivity|].
  set (variance := Pandas.sum _ / _).
  assert (Hvar : 70 * 70 <= variance).
  { unfold variance, Pandas.sum, Pandas.len. cbn. lra. }
  assert (H70 : 70 <= sqrt variance).
  { rewrite <- (sqrt_square 70) by lra. now apply sqrt_le_1_alt. }
  assert (H15 : 15 <= sqrt 252).
  { rewrite <- (sqrt_square 15) by lra. apply sqrt_le_1_alt. lra. }
  nra.
Qed.

(** C6, as stated, fails: on [1, 100, 1] the volatility is a number other
    than 0 and the quotient [(annualized_return/100 - 0.04) / (volatility/100)]
    is not 0, yet the Sharpe ratio returned is 0: the quotient is smaller
    than half a hundredth and every output is rounded to two decimals. *)
Lemma C6_sharpe_returned_rounded :
  exists m v,
    calculate_metrics [1; 100; 1] "AAPL" = Ok m /\
    total_return [1; 100; 1] = Ok 0 /\
    volatility [1; 100; 1] = Fin v /\ v <> 0 /\
    (annualized_return [1; 100; 1] 0 / 100 - 4 / 100) / (v / 100) <> 0 /\
    Sharpe_Ratio m = Fin 0.
Proof.
  destruct volatility_swing as [v [Hv Hbig]].
  assert (Htot : total_return [1; 100; 1] = Ok 0).
  { rewrite total_return_ends. cbn [last]. f_equal. lra. }
  unfold calculate_metrics. rewrite Htot. cbn [bind].
  rewrite annualized_return_flat, Hv.
  eexists. exists v. split; [reflexivity|]. split; [reflexivity|].
  split; [reflexivity|]. split; [lra|].
  cbn [Sharpe_Ratio sharpe_ratio].
  destruct (Rlt_dec 0 v) as [Hpos | Hneg]; [|lra].
  unfold excess_return, RISK_FREE_RATE.
  set (q := (0 / 100 - 4 / 100) / (v / 100)).
  assert (Hq : q * v = - 4) by (unfold q; field; lra).
  split; [intros E; rewrite E in Hq; lra|].
  f_equal. apply round2_small. split; nra.
Qed.

(** C6, amended: for a series of at least two positive prices, the Sharpe
    ratio computed is [(annualized_return/100 - 0.04) / (volatility/100)],
    on the unrounded annualized return and volatility, when the volatility
    is a number other than 0, and 0 when the volatility is 0 or is NaN (as
    it is for two prices); a record is returned in every case, and the
    Sharpe ratio it holds is the computed one rounded to two decimals. *)
Theorem C6_sharpe_ratio (prices : list R) (name : string) :
  Forall (Rlt 0) prices -> (2 <= List.length prices)%nat ->
  exists m tr,
    calculate_metrics prices name = Ok m /\
    total_return prices = Ok tr /\
    let annualized := annualized_return prices tr in
    let sharpe := sharpe_ratio annualized (volatility prices) in
    Sharpe_Ratio m = Fin (round2 sharpe) /\
    (forall v, volatility prices = Fin v -> v <> 0 ->
       sharpe = (annualized / 100 - 4 / 100) / (v / 100)) /\
    (volatility prices = Fin 0 -> sharpe = 0 /\ Sharpe_Ratio m = Fin 0) /\
    (volatility prices = NaN -> sharpe = 0 /\ Sharpe_Ratio m = Fin 0).
Proof.
  intros Hpos Hlen.
  destruct prices as [|p0 rest]; [simpl in Hlen; lia|].
  unfold calculate_metrics. rewrite total_return_ends. cbn [bind].
  eexists. eexists. split; [reflexivity|]. split; [reflexivity|].
  cbn zeta. cbn [Sharpe_Ratio]. split; [reflexivity|].
  split; [|split].
  - intros v Hv Hne. rewrite Hv.
    pose proof (volatility_nonneg _ _ Hv) as Hge.
    unfold sharpe_ratio, excess_return, RISK_FREE_RATE.
    destruct (Rlt_dec 0 v); [reflexivity | lra].
  - intros Hv. rewrite Hv. unfold sharpe_ratio.
    destruct (Rlt_dec 0 0); [lra|]. now rewrite round2_0.
  - intros Hv. rewrite Hv. cbn [sharpe_ratio]. now rewrite round2_0.
Qed.

Lemma C6_sharpe_ratio_witness :
  exists m tr,
    calculate_metrics [100; 110; 99] "AAPL" = Ok m /\
    total_return [100; 110; 99] = Ok tr /\
    let annualized := annualized_return [100; 110; 99] tr in
    let sharpe := sharpe_ratio annualized (volatility [100; 110; 99]) in
    Sharpe_Ratio m = Fin (round2 sharpe) /\
    (forall v, volatility [100; 110; 99] = Fin v -> v <> 0 ->
       sharpe = (annualized / 100 - 4 / 100) / (v / 100)) /\
    (volatility [100; 110; 99] = Fin 0 ->
       sharpe = 0 /\ Sharpe_Ratio m = Fin 0) /\
    (volatility [100; 110; 99] = NaN ->
       sharpe = 0 /\ Sharpe_Ratio m = Fin 0).
Proof.
  apply (C6_sharpe_ratio [100; 110; 99] "AAPL").
  - repeat constructor; lra.
  - simpl. lia.
Defined.

Lemma sum_zeros (s : list R) :
  Forall (fun x => x = 0) s -> Pandas.sum s = 0.
Proof.
  unfold Pandas.sum.
  induction 1 as [|x s Hx _ IH]; cbn [fold_right]; [reflexivity|].
  rewrite IH, Hx. lra.
Qed.

Lemma std_matches_sample_std (r1 r2 : R) (rs : list R) :
  Pandas.std (r1 :: r2 :: rs) = Fin (sample_std (r1 :: r2 :: rs)).
Proof.
  unfold Pandas.std, sample_std, Pandas.len. do 3 f_equal.
  f_equal. apply map_ext. intros x. ring.
Qed.

Lemma daily_returns_length (p : R) (rest : list R) :
  List.length (daily_returns (p :: rest)) = List.length rest.
Proof.
  unfold daily_returns. cbn [Pandas.pct_change Pandas.dropna].
  revert p. induction rest as [|q rest IH]; intros p; [reflexivity|].
  cbn [Pandas.pct_from Pandas.dropna List.length]. now rewrite IH.
Qed.

(** C3, as stated, fails: with two prices there is one return, and the
    volatility computed and returned is NaN, not 0. *)
Lemma C3_two_prices_volatility_nan :
  volatility [100; 110] = NaN /\
  exists m, calculate_metrics [100; 110] "AAPL" = Ok m /\
            Volatility m = NaN /\ Volatility m <> Fin 0.
Proof.
  split; [reflexivity|].
  unfold calculate_metrics. rewrite total_return_ends. cbn [bind].
  eexists. split; [reflexivity|]. cbn [Volatility].
  split; [reflexivity | discriminate].
Qed.

(** C3, amended: with at least two returns (three prices) the volatility is
    the sample standard deviation of the daily returns, dividing by
    [n_returns - 1], times [sqrt 252] times 100, returned rounded to two
    decimals; with exactly two prices, hence fewer than two returns, the
    volatility computed and returned is NaN. *)
Theorem C3_volatility (prices : list R) (name : string) :
  Forall (Rlt 0) prices -> (2 <= List.length prices)%nat ->
  exists m,
    calculate_metrics prices name = Ok m /\
    ((3 <= List.length prices)%nat ->
       (2 <= List.length (daily_returns prices))%nat /\
       volatility prices
       = Fin (sample_std (daily_returns prices) * sqrt 252 * 100) /\
       Volatility m
       = Fin (round2 (sample_std (daily_returns prices) * sqrt 252 * 100))) /\
    (List.length prices = 2%nat ->
       (List.length (daily_returns prices) < 2)%nat /\
       volatility prices = NaN /\ Volatility m = NaN).
Proof.
  intros Hpos Hlen.
  destruct prices as [|p0 rest]; [simpl in Hlen; lia|].
  unfold calculate_metrics. rewrite total_return_ends. cbn [bind].
  eexists. split; [reflexivity|]. cbn [Volatility].
  pose proof (daily_returns_length p0 rest) as Hrets.
  unfold volatility.
  destruct (daily_returns (p0 :: rest)) as [|r1 [|r2 rs]] eqn:E.
  - cbn [List.length] in *. split; intros H; [lia|].
    repeat split; cbn; lia.
  - cbn [List.length] in *. split; intros H; [lia|].
    repeat split; cbn; lia.
  - rewrite std_matches_sample_std. cbn [fmap List.length] in *.
    split; intros H; [|lia].
    repeat split. lia.
Qed.

Lemma C3_volatility_witness :
  exists m,
    calculate_metrics [100; 110; 99] "AAPL" = Ok m /\
    ((3 <= List.length [100; 110; 99]%R)%nat ->
       (2 <= List.length (daily_returns [100; 110; 99]%R))%nat /\
       volatility [100; 110; 99]
       = Fin (sample_std (daily_returns [100; 110; 99]) * sqrt 252 * 100) /\
       Volatility m
       = Fin (round2 (sample_std (daily_returns [100; 110; 99])
                      * sqrt 252 * 100))) /\
    (List.length [100; 110; 99] = 2%nat ->
       (List.length (daily_returns [100; 110; 99]%R) < 2)%nat /\
       volatility [100; 110; 99] = NaN /\ Volatility m = NaN).
Proof.
  apply (C3_volatility [100; 110; 99] "AAPL").
  - repeat constructor; lra.
  - simpl. lia.
Defined.

(** ** Constant series *)

Lemma last_repeat (p d : R) (k : nat) : last (repeat p (S k)) d = p.
Proof.
  induction k as [|k IH]; [reflexivity|].
  change (repeat p (S (S k))) with (p :: repeat p (S k)).
  change (repeat p (S k)) with (p :: repeat p k) at 1.
  cbn [last]. exact IH.
Qed.

Lemma dropna_pct_from_constant (p : R) (k : nat) :
  p <> 0 -> Pandas.dropna (Pandas.pct_from p (repeat p k)) = repeat 0 k.
Proof.
  intros Hp. induction k as [|k IH]; [reflexivity|].
  cbn [repeat Pandas.pct_from Pandas.dropna]. rewrite IH.
  f_equal. field. exact Hp.
Qed.

Lemma daily_returns_constant (p : R) (k : nat) :
  p <> 0 -> daily_returns (repeat p (S k)) = repeat 0 k.
Proof.
  intros Hp. unfold daily_returns.
  cbn [repeat Pandas.pct_change Pandas.dropna].
  now apply dropna_pct_from_constant.
Qed.

Lemma std_zeros (k : nat) : Pandas.std (repeat 0 (S (S k))) = Fin 0.
Proof.
  change (repeat 0 (S (S k))) with (0 :: 0 :: repeat 0 k).
  unfold Pandas.std. f_equal.
  assert (Hsum : Pandas.sum (0 :: 0 :: repeat 0 k) = 0).
  { apply sum_zeros. repeat constructor.
    apply Forall_forall. intros x Hx. now apply repeat_spec in Hx. }
  rewrite Hsum. rewrite sum_zeros.
  - unfold Rdiv. rewrite Rmult_0_l. apply sqrt_0.
  - apply Forall_forall. intros y Hy.
    apply in_map_iff in Hy as [x [<- Hx]].
    assert (Hx0 : x = 0).
    { destruct Hx as [<- | [<- | Hx]]; try reflexivity.
      now apply repeat_spec in Hx. }
    subst x. unfold Rdiv. rewrite Rmult_0_l. ring.
Qed.

Lemma Sorted_repeat (p : R) (n : nat) : Sorted Rle (repeat p n).
Proof.
  induction n as [|n IH]; [constructor|].
  cbn [repeat]. constructor; [exact IH|].
  destruct n; constructor. lra.
Qed.

Lemma Forall_repeat_pos (p : R) (n : nat) : 0 < p -> Forall (Rlt 0) (repeat p n).
Proof.
  intros Hp. apply Forall_forall. intros x Hx.
  apply repeat_spec in Hx. now subst.
Qed.

(** C4, as stated, fails: the constant series of two prices has a single
    return, and its volatility is returned as NaN. *)
Lemma C4_two_equal_prices_volatility_nan :
  exists m, calculate_metrics [5; 5] "AAPL" = Ok m /\
            Volatility m = NaN /\ Volatility m <> Fin 0.
Proof.
  unfold calculate_metrics. rewrite total_return_ends. cbn [bind].
  eexists. split; [reflexivity|]. cbn [Volatility].
  split; [reflexivity | discriminate].
Qed.

(** C4, amended: a constant series of positive prices has total return 0,
    Sharpe ratio 0 and maximum drawdown 0 (and annualized return 0); its
    volatility is 0 when it has at least three prices and NaN when it has
    exactly two. *)
Theorem C4_constant_series (p : R) (n : nat) (name : string) :
  0 < p -> (2 <= n)%nat ->
  exists m,
    calculate_metrics (repeat p n) name = Ok m /\
    Total_Return m = Fin 0 /\
    Annualized_Return m = Fin 0 /\
    Sharpe_Ratio m = Fin 0 /\
    Max_Drawdown m = Fin 0 /\
    ((3 <= n)%nat -> Volatility m = Fin 0) /\
    (n = 2%nat -> Volatility m = NaN).
Proof.
  intros Hp Hn.
  assert (Hp0 : p <> 0) by lra.
  destruct n as [|[|k]]; try lia.
  assert (Hmdd : max_drawdown (repeat p (S (S k))) = Fin 0).
  { apply max_drawdown_nondecreasing.
    - now apply Forall_repeat_pos.
    - rewrite repeat_length. lia.
    - apply Sorted_repeat. }
  assert (Htot : total_return (repeat p (S (S k))) = Ok 0).
  { change (repeat p (S (S k))) with (p :: repeat p (S k)).
    rewrite total_return_ends.
    change (p :: repeat p (S k)) with (repeat p (S (S k))).
    rewrite last_repeat. f_equal. field. exact Hp0. }
  unfold calculate_metrics. rewrite Htot. cbn [bind].
  rewrite annualized_return_flat, Hmdd.
  unfold volatility. rewrite daily_returns_constant by exact Hp0.
  eexists. split; [reflexivity|].
  cbn [Total_Return Annualized_Return Sharpe_Ratio Max_Drawdown Volatility fmap].
  rewrite round2_0.
  split; [reflexivity|]. split; [reflexivity|].
  destruct k as [|k].
  - cbn [repeat Pandas.std fmap sharpe_ratio]. rewrite round2_0.
    repeat split; try reflexivity. lia.
  - rewrite std_zeros. cbn [fmap sharpe_ratio].
    replace (0 * sqrt 252 * 100) with 0 by ring.
    destruct (Rlt_dec 0 0); [lra|]. rewrite round2_0.
    repeat split; try reflexivity. lia.
Qed.

Lemma C4_constant_series_witness :
  exists m,
    calculate_metrics (repeat 5 3) "AAPL" = Ok m /\
    Total_Return m = Fin 0 /\
    Annualized_Return m = Fin 0 /\
    Sharpe_Ratio m = Fin 0 /\
    Max_Drawdown m = Fin 0 /\
    ((3 <= 3)%nat -> Volatility m = Fin 0) /\
    (3%nat = 2%nat -> Volatility m = NaN).
Proof. apply (C4_constant_series 5 3 "AAPL"); [lra | lia]. Defined.

(** ** The runner *)

Lemma calculate_metrics_ticker (prices : list R) (name : string)
  (m : MetricsRecord) :
  calculate_metrics prices name = Ok m -> Ticker m = name.
Proof.
  unfold calculate_metrics.
  destruct (total_return prices) as [tr | e]; cbn [bind]; [|discriminate].
  intros H. injection H as <-. reflexivity.
Qed.

Lemma dict_set_fresh {V : Type} (k : string) (v : V) (d : dict V) :
  ~ In k (keys d) -> dict_set k v d = d ++ [(k, v)].
Proof.
  induction d as [|[k' v'] d IH]; intros Hk; [reflexivity|].
  cbn [dict_set]. destruct (String.eqb_spec k k') as [-> | Hne].
  - exfalso. apply Hk. now left.
  - cbn [app]. f_equal. apply IH. intros Hin. apply Hk. now right.
Qed.

Lemma generate_chart_nonempty (d : dict (list R)) :
  Forall (fun kv => snd kv <> []) d ->
  generate_chart d
  = Ok (map (fun kv => (fst kv,
                        map (fun q => q / hd 0 (snd kv) * 100) (snd kv))) d).
Proof.
  induction 1 as [|[name prices] d Hne _ IH]; [reflexivity|].
  cbn [generate_chart map fst snd] in *.
  destruct prices as [|p rest]; [congruence|].
  rewrite normalized_cons, IH. reflexivity.
Qed.

Section RunnerFacts.

Variable download : string -> date -> date -> result (list R).
Variables start_date end_date : date.

Lemma attempt_ok_inv (symbol label : string) (m : MetricsRecord)
  (prices : list R) :
  attempt download symbol label start_date end_date = Ok (m, prices) ->
  download symbol start_date end_date = Ok prices /\
  (2 <= List.length prices)%nat /\
  calculate_metrics prices label = Ok m.
Proof.
  unfold attempt, fetch_data.
  destruct (download symbol start_date end_date) as [data | e];
    cbn [bind]; [|discriminate].
  destruct data as [|x [|y rest]]; cbn [bind squeeze]; try discriminate.
  destruct (calculate_metrics (x :: y :: rest) label) as [m' | e] eqn:E;
    cbn [bind]; [|discriminate].
  intros H. injection H as <- <-.
  repeat split; cbn [List.length]; [lia | exact E].
Qed.

(** The loop of [main] over any list of (symbol, label) pairs. *)
Lemma loop_invariant (symbols : list (string * string)) (st : run_state) :
  NoDup (keys (price_data st) ++ map snd symbols) ->
  let st' :=
    fold_left (fun st sl => process download start_date end_date st
                                    (fst sl) (snd sl)) symbols st in
  results st'
  = results st
    ++ map metrics_of (successes download start_date end_date symbols) /\
  price_data st'
  = price_data st
    ++ map (fun s => (label_of s, prices_of s))
           (successes download start_date end_date symbols) /\
  errors st'
  = errors st ++ failures download start_date end_date symbols.
Proof.
  revert st. induction symbols as [|[symbol label] rest IH]; intros st Hnd.
  - cbn. now rewrite !app_nil_r.
  - cbn [fold_left successes failures fst snd map] in *.
    unfold process at 2 4 6.
    destruct (attempt download symbol label start_date end_date)
      as [[m prices] | e].
    + assert (Hfresh : ~ In label (keys (price_data st))).
      { apply NoDup_remove_2 in Hnd. intros Hin. apply Hnd.
        apply in_or_app. now left. }
      rewrite (dict_set_fresh label prices _ Hfresh).
      match goal with |- context [fold_left _ rest ?s] =>
        specialize (IH s) end.
      cbn [results price_data errors] in IH.
      destruct IH as [Hr [Hp He]].
      { unfold keys. rewrite map_app. cbn [map fst].
        rewrite <- app_assoc. exact Hnd. }
      rewrite Hr, Hp, He. cbn [map label_of metrics_of prices_of].
      rewrite <- !app_assoc. repeat split.
    + match goal with |- context [fold_left _ rest ?s] =>
        specialize (IH s) end.
      cbn [results price_data errors] in IH.
      destruct IH as [Hr [Hp He]].
      { now apply NoDup_remove_1 in Hnd. }
      rewrite Hr, Hp, He. rewrite <- !app_assoc. repeat split.
Qed.

Lemma successes_sound (symbols : list (string * string)) :
  Forall (fun s => (2 <= List.length (prices_of s))%nat /\
                   calculate_metrics (prices_of s) (label_of s)
                   = Ok (metrics_of s))
         (successes download start_date end_date symbols).
Proof.
  induction symbols as [|[symbol label] rest IH]; [constructor|].
  cbn [successes].
  destruct (attempt download symbol label start_date end_date)
    as [[m prices] | e] eqn:E; [|exact IH].
  constructor; [|exact IH].
  apply attempt_ok_inv in E as [_ [Hlen Hm]]. now split.
Qed.

Lemma successes_labels (symbols : list (string * string)) :
  map label_of (successes download start_date end_date symbols)
  = map snd
      (filter (fun sl => is_ok (attempt download (fst sl) (snd sl)
                                        start_date end_date)) symbols).
Proof.
  induction symbols as [|[symbol label] rest IH]; [reflexivity|].
  cbn [successes filter fst snd].
  destruct (attempt download symbol label start_date end_date)
    as [[m prices] | e]; cbn [is_ok map label_of snd]; now rewrite IH.
Qed.

Lemma failures_labels (symbols : list (string * string)) :
  map fst (failures download start_date end_date symbols)
  = map snd
      (filter (fun sl => negb (is_ok (attempt download (fst sl) (snd sl)
                                              start_date end_date)))
              symbols).
Proof.
  induction symbols as [|[symbol label] rest IH]; [reflexivity|].
  cbn [failures filter fst snd].
  destruct (attempt download symbol label start_date end_date)
    as [[m prices] | e]; cbn [is_ok negb map fst snd]; now rewrite IH.
Qed.

(** A symbol succeeds exactly when the supplier returns at least two
    rows for it. *)
Lemma is_ok_attempt (symbol label : string) :
  is_ok (attempt download symbol label start_date end_date)
  = match download symbol start_date end_date with
    | Ok (_ :: _ :: _) => true
    | _ => false
    end.
Proof.
  unfold attempt, fetch_data.
  destruct (download symbol start_date end_date) as [[|x [|y rest]] | e];
    cbn [bind squeeze is_ok]; try reflexivity.
  unfold calculate_metrics. rewrite total_return_ends. reflexivity.
Qed.

End RunnerFacts.

(** The two loops of [main], the tickers and then the benchmark, are one
    pass over the requested symbols. *)
Lemma main_loop_requested
  (download : string -> date -> date -> result (list R)) (args : Args)
  (start_date end_date : date) :
  match index args with
  | Some i =>
      process download start_date end_date
        (fold_left (fun st ticker =>
                      process download start_date end_date st ticker ticker)
                   (tickers args) initial_state)
        (INDEX_MAPPING i) (index_label i)
  | None =>
      fold_left (fun st ticker =>
                   process download start_date end_date st ticker ticker)
                (tickers args) initial_state
  end
  = fold_left (fun st sl => process download start_date end_date st
                                    (fst sl) (snd sl))
              (requested args) initial_state.
Proof.
  unfold requested. rewrite fold_left_app.
  assert (Hmap : forall l st,
    fold_left (fun st sl => process download start_date end_date st
                                    (fst sl) (snd sl))
              (map (fun ticker : string => (ticker, ticker)) l) st
    = fold_left (fun st ticker =>
                   process download start_date end_date st ticker ticker)
                l st).
  { induction l as [|t l IH]; intros st; [reflexivity|]. cbn. apply IH. }
  rewrite Hmap. destruct (index args); reflexivity.
Qed.

(** What [main] does, in terms of the symbols that succeed and fail. *)
Lemma main_characterization
  (download : string -> date -> date -> result (list R)) (args : Args) :
  (start args <= end_ args)%Z ->
  NoDup (map snd (requested args)) ->
  let start_date : date := (start args, 1, 1)%Z in
  let end_date : date := (end_ args, 12, 31)%Z in
  let ok := successes download start_date end_date (requested args) in
  let ko := failures download start_date end_date (requested args) in
  main download args =
  match ok with
  | [] => Ok (NoData ko)
  | _ =>
      Ok (Completed
            (map metrics_of ok)
            (map (fun s => (label_of s,
                            map (fun q => q / hd 0 (prices_of s) * 100)
                                (prices_of s))) ok)
            ko)
  end.
Proof.
  intros Hrange Hnd start_date end_date ok ko.
  unfold main.
  assert (Hlt : (end_ args <? start args)%Z = false) by (apply Z.ltb_ge; lia).
  rewrite Hlt.
  fold start_date end_date. cbn zeta.
  rewrite (main_loop_requested download args start_date end_date).
  destruct (loop_invariant download start_date end_date (requested args)
              initial_state Hnd) as [Hr [Hp He]].
  cbn [initial_state results price_data errors app] in Hr, Hp, He.
  rewrite Hr, Hp, He. fold ok ko.
  pose proof (successes_sound download start_date end_date (requested args))
    as Hsound.
  fold ok in Hsound.
  assert (Hchart :
    generate_chart (map (fun s => (label_of s, prices_of s)) ok)
    = Ok (map (fun s => (label_of s,
                         map (fun q => q / hd 0 (prices_of s) * 100)
                             (prices_of s))) ok)).
  { rewrite generate_chart_nonempty.
    - rewrite map_map. reflexivity.
    - apply Forall_forall. intros kv Hkv.
      apply in_map_iff in Hkv as [s' [<- Hs']].
      rewrite Forall_forall in Hsound.
      destruct (Hsound s' Hs') as [Hlen _]. cbn [snd].
      destruct (prices_of s'); [simpl in Hlen; lia | discriminate]. }
  rewrite Hchart.
  destruct ok as [|s ok']; reflexivity.
Qed.

(** Three symbols requested and none found for the second: the table and the
    chart hold the other two, in the order requested. *)
Example scenario_one_not_found :
  exists table chart,
    main scenario_download
         (scenario_args ["AAPL"; "MSFT"; "GOOG"]%string None)
    = Ok (Completed table chart
            [("MSFT", ValueError "No data found for MSFT")]%string) /\
    map Ticker table = ["AAPL"; "GOOG"]%string /\
    keys chart = ["AAPL"; "GOOG"]%string.
Proof.
  rewrite main_characterization.
  - unfold requested, scenario_args.
    cbn [tickers index map app successes failures].
    unfold attempt, fetch_data.
    cbn [scenario_download String.eqb Ascii.eqb Bool.eqb bind squeeze].
    unfold calculate_metrics. rewrite !total_return_ends.
    cbn [bind map label_of metrics_of prices_of String.append].
    do 2 eexists. split; [reflexivity|]. split; reflexivity.
  - cbn. lia.
  - cbn. repeat constructor; cbn; intuition discriminate.
Qed.



(** * Further properties of [backtester.py] *)

(** ** What a try block of main can end with *)

(** X1: a symbol's try block succeeds exactly on two or more rows, and then
    stores the supplier's rows unchanged; no rows is the ValueError of
    [fetch_data], a single row the AttributeError of the scalar that
    [squeeze] leaves, and an exception of the supplier is passed on as it
    is. *)
Theorem X1_attempt_outcomes
  (download : string -> date -> date -> result (list R))
  (symbol label : string) (start_date end_date : date) :
  match download symbol start_date end_date with
  | Ok [] =>
      attempt download symbol label start_date end_date
      = Raise (ValueError ("No data found for " ++ symbol))
  | Ok [_] =>
      attempt download symbol label start_date end_date = Raise AttributeError
  | Ok rows =>
      exists m,
        attempt download symbol label start_date end_date = Ok (m, rows) /\
        calculate_metrics rows label = Ok m /\ Ticker m = label
  | Raise e =>
      attempt download symbol label start_date end_date = Raise e
  end.
Proof.
  unfold attempt, fetch_data.
  destruct (download symbol start_date end_date) as [[|x [|y rest]] | e];
    cbn [bind squeeze]; try reflexivity.
  destruct (calculate_metrics (x :: y :: rest) label) as [m | e] eqn:E.
  - exists m. cbn [bind]. repeat split.
    now apply calculate_metrics_ticker in E.
  - exfalso. unfold calculate_metrics in E.
    rewrite total_return_ends in E. discriminate.
Qed.

(** ** main with repeated labels *)

Lemma dict_set_keys_in {V : Type} (k k' : string) (v : V) (d : dict V) :
  In k' (keys (dict_set k v d)) <-> k' = k \/ In k' (keys d).
Proof.
  induction d as [|[k0 v0] d IH]; cbn [dict_set keys map fst In].
  - intuition.
  - destruct (String.eqb_spec k k0) as [-> | Hne];
      cbn [keys map fst In]; [intuition|].
    unfold keys in IH. rewrite IH. intuition.
Qed.

Lemma dict_set_keys_NoDup {V : Type} (k : string) (v : V) (d : dict V) :
  NoDup (keys d) -> NoDup (keys (dict_set k v d)).
Proof.
  induction d as [|[k0 v0] d IH]; intros Hnd; cbn [dict_set].
  - repeat constructor. intros [].
  - destruct (String.eqb_spec k k0) as [-> | Hne]; [exact Hnd|].
    cbn [keys map fst] in *. inversion Hnd as [|? ? Hnotin Hnd']; subst.
    constructor; [|now apply IH].
    intros Hin. apply dict_set_keys_in in Hin as [-> | Hin];
      [congruence | contradiction].
Qed.

Lemma dict_set_values {V : Type} (P : V -> Prop) (k : string) (v : V)
  (d : dict V) :
  P v -> Forall (fun kv => P (snd kv)) d ->
  Forall (fun kv => P (snd kv)) (dict_set k v d).
Proof.
  intros Hv. induction 1 as [|[k0 v0] d H0 Hd IH]; cbn [dict_set].
  - repeat constructor. exact Hv.
  - destruct (String.eqb k k0); constructor; auto.
Qed.

Section LoopFacts.

Variable download : string -> date -> date -> result (list R).
Variables start_date end_date : date.

(** The loop of [main] whatever the labels are: one table row per success,
    one message per failure, and a dictionary without repeated keys whose
    series all have two points or more. *)
Lemma loop_accounting (symbols : list (string * string)) (st : run_state) :
  NoDup (keys (price_data st)) ->
  Forall (fun kv => (2 <= List.length (snd kv))%nat) (price_data st) ->
  let st' :=
    fold_left (fun st sl => process download start_date end_date st
                                    (fst sl) (snd sl)) symbols st in
  results st'
  = results st
    ++ map metrics_of (successes download start_date end_date symbols) /\
  errors st' = errors st ++ failures download start_date end_date symbols /\
  NoDup (keys (price_data st')) /\
  Forall (fun kv => (2 <= List.length (snd kv))%nat) (price_data st') /\
  (forall k, In k (keys (price_data st')) <->
             In k (keys (price_data st)) \/
             In k (map label_of
                       (successes download start_date end_date symbols))).
Proof.
  revert st. induction symbols as [|[symbol label] rest IH]; intros st Hnd Hlen.
  - cbn. rewrite !app_nil_r. intuition.
  - cbn [fold_left successes failures fst snd].
    unfold process at 2 4 6 8 10.
    destruct (attempt download symbol label start_date end_date)
      as [[m prices] | e] eqn:E.
    + apply attempt_ok_inv in E as [_ [Hp _]].
      match goal with |- context [fold_left _ rest ?s] =>
        specialize (IH s) end.
      cbn [results price_data errors] in IH.
      destruct IH as [Hr [He [Hnd' [Hlen' Hkeys]]]].
      { now apply dict_set_keys_NoDup. }
      { now apply (dict_set_values (fun v => (2 <= List.length v)%nat)). }
      rewrite Hr, He. cbn [map label_of metrics_of In].
      rewrite <- app_assoc. repeat split; try assumption.
      * intros Hk. apply Hkeys in Hk as [Hk | Hk]; [|now right; right].
        apply dict_set_keys_in in Hk as [-> | Hk]; [right; now left | now left].
      * intros [Hk | [<- | Hk]]; apply Hkeys.
        -- left. apply dict_set_keys_in. now right.
        -- left. apply dict_set_keys_in. now left.
        -- now right.
    + match goal with |- context [fold_left _ rest ?s] =>
        specialize (IH s) end.
      cbn [results price_data errors] in IH.
      destruct IH as [Hr [He [Hnd' [Hlen' Hkeys]]]]; try assumption.
      rewrite Hr, He. rewrite <- app_assoc.
      repeat split; try assumption; apply Hkeys.
Qed.

End LoopFacts.

Lemma successes_failures_length
  (download : string -> date -> date -> result (list R))
  (start_date end_date : date) (symbols : list (string * string)) :
  (List.length (successes download start_date end_date symbols)
   + List.length (failures download start_date end_date symbols)
   = List.length symbols)%nat.
Proof.
  induction symbols as [|[symbol label] rest IH]; [reflexivity|].
  cbn [successes failures].
  destruct (attempt download symbol label start_date end_date)
    as [[m prices] | e]; cbn [List.length]; lia.
Qed.

Lemma generate_chart_keys (d chart : dict (list R)) :
  generate_chart d = Ok chart -> keys chart = keys d.
Proof.
  revert chart. induction d as [|[name prices] d IH]; intros chart.
  - cbn. intros H. now injection H as <-.
  - cbn [generate_chart].
    destruct (normalized prices) as [line | e]; cbn [bind]; [|discriminate].
    destruct (generate_chart d) as [lines | e]; cbn [bind]; [|discriminate].
    intros H. injection H as <-. cbn [keys map fst].
    f_equal. now apply IH.
Qed.

(** What [main] ends with, for any labels. *)
Lemma main_accounting
  (download : string -> date -> date -> result (list R)) (args : Args) :
  (start args <= end_ args)%Z ->
  let start_date : date := (start args, 1, 1)%Z in
  let end_date : date := (end_ args, 12, 31)%Z in
  let ok := successes download start_date end_date (requested args) in
  let ko := failures download start_date end_date (requested args) in
  exists chart,
    main download args
    = Ok (match ok with
          | [] => NoData ko
          | _ => Completed (map metrics_of ok) chart ko
          end) /\
    (ok <> [] ->
     NoDup (keys chart) /\
     forall k, In k (keys chart) <-> In k (map label_of ok)).
Proof.
  intros Hrange start_date end_date ok ko.
  unfold main.
  assert (Hlt : (end_ args <? start args)%Z = false) by (apply Z.ltb_ge; lia).
  rewrite Hlt. fold start_date end_date. cbn zeta.
  rewrite (main_loop_requested download args start_date end_date).
  destruct (loop_accounting download start_date end_date (requested args)
              initial_state) as [Hr [He [Hnd [Hlen Hkeys]]]];
    [constructor | constructor |].
  cbn [initial_state results price_data errors app] in Hr, He, Hkeys.
  rewrite Hr, He. fold ok ko in Hkeys |- *.
  set (pd := price_data _) in *.
  assert (Hgen : generate_chart pd
                 = Ok (map (fun kv => (fst kv,
                         map (fun q => q / hd 0 (snd kv) * 100) (snd kv))) pd)).
  { apply generate_chart_nonempty.
    eapply Forall_impl; [|exact Hlen].
    intros [k v] Hv. cbn [snd] in *.
    destruct v; [simpl in Hv; lia | discriminate]. }
  rewrite Hgen. eexists. split.
  - destruct ok; reflexivity.
  - intros _. rewrite (generate_chart_keys _ _ Hgen).
    split; [exact Hnd|]. intros k. rewrite Hkeys. cbn [keys map In]. intuition.
Qed.

(** X2: whatever the supplier returns or raises, for whatever tickers and
    years, [main] ends normally: no exception leaves it.  It stops at the
    date check exactly when the end year is before the start year. *)
Theorem X2_main_never_raises
  (download : string -> date -> date -> result (list R)) (args : Args) :
  exists o,
    main download args = Ok o /\
    (o = InvalidRange <-> (end_ args < start args)%Z).
Proof.
  destruct (Z.lt_ge_cases (end_ args) (start args)) as [Hlt | Hge].
  - exists InvalidRange. unfold main.
    apply Z.ltb_lt in Hlt as Hb. rewrite Hb. split; [reflexivity|].
    split; auto.
  - destruct (main_accounting download args Hge) as [chart [Hmain _]].
    cbn zeta in Hmain. eexists. split; [exact Hmain|].
    split; [|lia].
    destruct (successes download _ _ (requested args)); discriminate.
Qed.

(** X3: with labels that may repeat, a run that gets past the date check
    reports one table row per request that succeeded and one message per
    request that failed, in the order requested, so rows and messages add up
    to the number of requests; the chart has one line per distinct label
    that succeeded, never two under the same label. *)
Theorem X3_main_accounting
  (download : string -> date -> date -> result (list R)) (args : Args) :
  (start args <= end_ args)%Z ->
  let start_date : date := (start args, 1, 1)%Z in
  let end_date : date := (end_ args, 12, 31)%Z in
  let succeeds := fun sl : string * string =>
    is_ok (attempt download (fst sl) (snd sl) start_date end_date) in
  let kept := map snd (filter succeeds (requested args)) in
  let dropped :=
    map snd (filter (fun sl => negb (succeeds sl)) (requested args)) in
  exists table chart skipped,
    main download args
    = Ok (match kept with
          | [] => NoData skipped
          | _ => Completed table chart skipped
          end) /\
    map Ticker table = kept /\
    map fst skipped = dropped /\
    (List.length table + List.length skipped
     = List.length (requested args))%nat /\
    (kept <> [] ->
     NoDup (keys chart) /\ forall k, In k (keys chart) <-> In k kept).
Proof.
  intros Hrange start_date end_date succeeds kept dropped.
  destruct (main_accounting download args Hrange) as [chart [Hmain Hchart]].
  cbn zeta in Hmain, Hchart. fold start_date end_date in Hmain, Hchart.
  pose proof (successes_labels download start_date end_date (requested args))
    as Hkept.
  pose proof (failures_labels download start_date end_date (requested args))
    as Hdropped.
  pose proof (successes_sound download start_date end_date (requested args))
    as Hsound.
  pose proof (successes_failures_length download start_date end_date
                (requested args)) as Hcount.
  fold succeeds kept in Hkept. fold succeeds dropped in Hdropped.
  set (ok := successes download start_date end_date (requested args)) in *.
  exists (map metrics_of ok), chart,
    (failures download start_date end_date (requested args)).
  assert (Htickers : map Ticker (map metrics_of ok) = kept).
  { rewrite <- Hkept, map_map. apply map_ext_in. intros s Hs.
    rewrite Forall_forall in Hsound. destruct (Hsound s Hs) as [_ Hm].
    now apply calculate_metrics_ticker in Hm. }
  split.
  - rewrite Hmain. rewrite <- Hkept. destruct ok; reflexivity.
  - split; [exact Htickers|]. split; [exact Hdropped|].
    split; [rewrite length_map; exact Hcount|].
    intros Hne. rewrite <- Hkept in Hne |- *. apply Hchart.
    intros E. apply Hne. now rewrite E.
Qed.

Lemma X3_main_accounting_witness :
  exists table chart skipped,
    main collision_download (scenario_args ["DOW"; "IBM"]%string (Some DOW))
    = Ok (Completed table chart skipped) /\
    map Ticker table = ["DOW"; "DOW"]%string /\
    map fst skipped = ["IBM"]%string /\
    (List.length table + List.length skipped = 3)%nat /\
    NoDup (keys chart) /\
    (forall k, In k (keys chart) <-> In k ["DOW"; "DOW"]%string).
Proof.
  assert (Hrange : (start (scenario_args ["DOW"; "IBM"]%string (Some DOW))
                    <= end_ (scenario_args ["DOW"; "IBM"]%string (Some DOW)))%Z)
    by (cbn; lia).
  destruct (X3_main_accounting collision_download
              (scenario_args ["DOW"; "IBM"]%string (Some DOW)) Hrange)
    as [table [chart [skipped H]]].
  revert H.
  unfold requested, scenario_args.
  cbn [tickers index map app filter fst snd INDEX_MAPPING index_label].
  rewrite ?is_ok_attempt.
  repeat (cbn [collision_download String.eqb Ascii.eqb Bool.eqb negb filter
               map snd fst List.length];
          rewrite ?is_ok_attempt).
  intros [Hmain [Ht [Hs [Hc Hk]]]].
  exists table, chart, skipped.
  repeat split; try assumption; apply Hk; discriminate.
Defined.

(** ** The runner's outputs *)







(** ** The growth path, the chart and the first price *)

Lemma last_map_nonempty (f : R -> R) (s : list R) (d d' : R) :
  s <> [] -> last (map f s) d = f (last s d').
Proof.
  induction s as [|x s IH]; [congruence|]. intros _.
  destruct s as [|y s]; [reflexivity|].
  change (last (map f (y :: s)) d = f (last (y :: s) d')).
  apply IH. discriminate.
Qed.

(** X4: the chart line of a series is 100 followed by the growth path times
    100, and the growth path ends at [1 + total_return / 100]: the chart,
    the drawdown path and the total return are one curve, the path lacking
    only the chart's first point. *)
Theorem X4_growth_path_is_chart (p0 : R) (rest : list R) :
  Forall (fun p => p <> 0) (p0 :: rest) ->
  normalized (p0 :: rest)
  = Ok (100 :: map (fun c => c * 100) (cumulative (p0 :: rest))) /\
  List.length (cumulative (p0 :: rest)) = List.length rest /\
  (rest <> [] ->
   total_return (p0 :: rest)
   = Ok ((last (cumulative (p0 :: rest)) 1 - 1) * 100)).
Proof.
  intros Hnz. inversion Hnz as [|? ? Hp0 Hrest]; subst.
  rewrite cumulative_ratio by exact Hnz.
  rewrite normalized_cons, total_return_ends, length_map.
  split; [|split; [reflexivity|]].
  - cbn [map]. f_equal. apply (f_equal2 (@cons R)); [field; exact Hp0|].
    rewrite map_map. apply map_ext. intros q. field. exact Hp0.
  - intros Hne. rewrite (last_map_nonempty _ rest 1 0 Hne).
    destruct rest as [|p1 rest']; [congruence|]. reflexivity.
Qed.

Lemma X4_growth_path_is_chart_witness :
  normalized [100; 110; 99]
  = Ok (100 :: map (fun c => c * 100) (cumulative [100; 110; 99])) /\
  List.length (cumulative [100; 110; 99]) = List.length [110; 99] /\
  ([110; 99] <> [] ->
   total_return [100; 110; 99]
   = Ok ((last (cumulative [100; 110; 99]) 1 - 1) * 100)).
Proof.
  apply (X4_growth_path_is_chart 100 [110; 99]).
  repeat constructor; lra.
Defined.

Lemma cummax_from_scale (c acc : R) (s : list R) :
  0 <= c ->
  Pandas.cummax_from (c * acc) (map (Rmult c) s)
  = map (Rmult c) (Pandas.cummax_from acc s).
Proof.
  intros Hc. revert acc.
  induction s as [|x s IH]; intros acc; [reflexivity|].
  cbn [map Pandas.cummax_from].
  rewrite (RmaxRmult acc x c Hc). now rewrite IH.
Qed.

Lemma drawdown_scale (c : R) (a b : list R) :
  c <> 0 -> Forall (fun m => m <> 0) b ->
  Pandas.map2 (fun x m => (x - m) / m) (map (Rmult c) a) (map (Rmult c) b)
  = Pandas.map2 (fun x m => (x - m) / m) a b.
Proof.
  intros Hc. revert b.
  induction a as [|x a IH]; intros b Hb; [reflexivity|].
  destruct b as [|m b]; [reflexivity|].
  inversion Hb as [|? ? Hm Hb']; subst.
  cbn [map Pandas.map2]. rewrite IH by exact Hb'.
  apply (f_equal2 (@cons R)); [|reflexivity].
  field. split; assumption.
Qed.

Lemma cummax_from_positive (acc : R) (s : list R) :
  0 < acc -> Forall (fun m => m <> 0) (Pandas.cummax_from acc s).
Proof.
  revert acc. induction s as [|x s IH]; intros acc Hacc; [constructor|].
  cbn [Pandas.cummax_from].
  assert (H : 0 < Rmax acc x).
  { eapply Rlt_le_trans; [exact Hacc | apply Rmax_l]. }
  constructor; [lra | now apply IH].
Qed.

(** The maximum drawdown written on the prices after the first. *)
Lemma max_drawdown_without_first (p0 p1 : R) (rest : list R) :
  Forall (Rlt 0) (p0 :: p1 :: rest) ->
  max_drawdown (p0 :: p1 :: rest)
  = Fin (fold_left Rmin
           (Pandas.map2 (fun c m => (c - m) / m) rest
                        (Pandas.cummax_from p1 rest)) 0 * 100).
Proof.
  intros Hpos.
  rewrite max_drawdown_of_path by (apply positive_nonzero; exact Hpos).
  inversion Hpos as [|? ? Hp0 Hpos']; subst.
  inversion Hpos' as [|? ? Hp1 _]; subst.
  assert (Hmap : map (fun p => p / p0) rest = map (Rmult (/ p0)) rest).
  { apply map_ext. intros q. unfold Rdiv. apply Rmult_comm. }
  replace (p1 / p0) with (/ p0 * p1) by (unfold Rdiv; apply Rmult_comm).
  rewrite Hmap.
  assert (Hinv : 0 < / p0) by now apply Rinv_0_lt_compat.
  rewrite cummax_from_scale by lra.
  rewrite drawdown_scale; [reflexivity | lra | now apply cummax_from_positive].
Qed.

(** X5: the maximum drawdown does not depend on the first price: the path
    it is measured on starts at the first return, so two series of positive
    prices that differ only in their first price have the same maximum
    drawdown. *)
Theorem X5_max_drawdown_ignores_first_price (p0 q0 : R) (rest : list R) :
  0 < p0 -> 0 < q0 -> Forall (Rlt 0) rest ->
  max_drawdown (p0 :: rest) = max_drawdown (q0 :: rest).
Proof.
  intros Hp Hq Hrest. destruct rest as [|p1 rest]; [reflexivity|].
  rewrite !max_drawdown_without_first by (constructor; assumption).
  reflexivity.
Qed.

Lemma X5_max_drawdown_ignores_first_price_witness :
  max_drawdown [100; 90; 80] = max_drawdown [1000; 90; 80].
Proof.
  apply (X5_max_drawdown_ignores_first_price 100 1000 [90; 80]);
    [lra | lra | repeat constructor; lra].
Defined.

(** ** How far a rounded value is from the value *)

Lemma rint_error (y : R) : - (1 / 2) <= IZR (rint y) - y <= 1 / 2.
Proof.
  unfold rint. destruct (floorZ_spec y) as [Hlo Hhi].
  destruct (Rlt_dec (y - IZR (floorZ y)) (1 / 2)) as [H1 | H1]; [lra|].
  destruct (Rlt_dec (1 / 2) (y - IZR (floorZ y))) as [H2 | H2].
  - rewrite plus_IZR. lra.
  - destruct (Z.even (floorZ y)); [|rewrite plus_IZR]; lra.
Qed.

Lemma round2_error (x : R) : Rabs (round2 x - x) <= 1 / 200.
Proof.
  unfold round2. pose proof (rint_error (x * 100)) as H.
  apply Rabs_le. lra.
Qed.

Lemma round2_idempotent (x : R) : round2 (round2 x) = round2 x.
Proof. unfold round2 at 2 3. apply round2_hundredths. Qed.

(** ** The ranges of the metrics *)

Lemma rint_ge_int (y : R) (z : Z) : IZR z <= y -> (z <= rint y)%Z.
Proof.
  intros Hz. destruct (floorZ_spec y) as [Hlo Hhi].
  assert (Hf : (z <= floorZ y)%Z).
  { assert (H : (z < floorZ y + 1)%Z) by (apply lt_IZR; rewrite plus_IZR; lra).
    lia. }
  unfold rint.
  destruct (Rlt_dec (y - IZR (floorZ y)) (1 / 2)); [exact Hf|].
  destruct (Rlt_dec (1 / 2) (y - IZR (floorZ y))); [lia|].
  destruct (Z.even (floorZ y)); lia.
Qed.

Lemma round2_ge_hundredths (x : R) (z : Z) :
  IZR z / 100 <= x -> IZR z / 100 <= round2 x.
Proof.
  intros Hx. unfold round2.
  assert (H : (z <= rint (x * 100))%Z) by (apply rint_ge_int; lra).
  apply IZR_le in H. lra.
Qed.

Lemma last_positive (p : R) (rest : list R) :
  Forall (Rlt 0) (p :: rest) -> 0 < last (p :: rest) 0.
Proof.
  revert p. induction rest as [|q rest IH]; intros p Hpos.
  - now inversion Hpos.
  - inversion Hpos; subst.
    change (0 < last (q :: rest) 0). now apply IH.
Qed.

Lemma fold_left_Rmin_gt (k : R) (s : list R) (x : R) :
  Forall (fun d => k < d) s -> k < x -> k < fold_left Rmin s x.
Proof.
  intros Hs. revert x.
  induction Hs as [|d s Hd _ IH]; intros x Hx; [exact Hx|].
  cbn [fold_left]. apply IH. now apply Rmin_glb_lt.
Qed.

Lemma drawdown_above_minus_one (acc : R) (s : list R) :
  0 < acc -> Forall (Rlt 0) s ->
  Forall (fun d => - 1 < d)
         (Pandas.map2 (fun c m => (c - m) / m) s (Pandas.cummax_from acc s)).
Proof.
  intros Hacc Hs. revert acc Hacc.
  induction Hs as [|x s Hx _ IH]; intros acc Hacc; [constructor|].
  cbn [Pandas.cummax_from Pandas.map2].
  assert (Hm : 0 < Rmax acc x).
  { eapply Rlt_le_trans; [exact Hacc | apply Rmax_l]. }
  constructor; [|now apply IH].
  replace ((x - Rmax acc x) / Rmax acc x) with (x / Rmax acc x - 1)
    by (field; lra).
  assert (0 < x / Rmax acc x) by now apply Rdiv_lt_0_compat.
  lra.
Qed.

Lemma max_drawdown_above_minus_100 (prices : list R) (d : R) :
  Forall (Rlt 0) prices -> max_drawdown prices = Fin d -> - 100 < d.
Proof.
  intros Hpos Hd.
  destruct prices as [|p0 [|p1 rest]]; try discriminate.
  rewrite max_drawdown_without_first in Hd by exact Hpos.
  injection Hd as <-.
  inversion Hpos as [|? ? Hp0 Hpos']; subst.
  inversion Hpos' as [|? ? Hp1 Hrest]; subst.
  pose proof (fold_left_Rmin_gt (- 1) _ 0
                (drawdown_above_minus_one p1 rest Hp1 Hrest)) as H.
  lra.
Qed.

(** X8: for a series of at least two positive prices a record is returned;
    the total return and the annualized return are at least -100, the
    maximum drawdown is at least -100 and at most 0, and the volatility is
    not negative, whenever these are numbers; the returned, rounded values
    keep the same bounds. *)
Theorem X8_metric_ranges (prices : list R) (name : string) :
  Forall (Rlt 0) prices -> (2 <= List.length prices)%nat ->
  exists m,
    calculate_metrics prices name = Ok m /\
    (forall tr, total_return prices = Ok tr ->
       - 100 <= tr /\ - 100 <= annualized_return prices tr) /\
    (forall d, max_drawdown prices = Fin d -> - 100 <= d <= 0) /\
    (forall v, volatility prices = Fin v -> 0 <= v) /\
    (forall t, Total_Return m = Fin t -> - 100 <= t) /\
    (forall a, Annualized_Return m = Fin a -> - 100 <= a) /\
    (forall d', Max_Drawdown m = Fin d' -> - 100 <= d' <= 0) /\
    (forall v', Volatility m = Fin v' -> 0 <= v').
Proof.
  intros Hpos Hlen.
  destruct (max_drawdown_nonpos prices Hpos Hlen) as [d [Hd Hd0]].
  pose proof (max_drawdown_above_minus_100 prices d Hpos Hd) as Hd100.
  destruct prices as [|p0 rest]; [simpl in Hlen; lia|].
  assert (Hp0 : 0 < p0) by (inversion Hpos; assumption).
  pose proof (last_positive p0 rest Hpos) as Hlast.
  set (tr := (last (p0 :: rest) 0 / p0 - 1) * 100).
  assert (Htr : - 100 <= tr).
  { unfold tr. assert (0 < last (p0 :: rest) 0 / p0)
      by now apply Rdiv_lt_0_compat. lra. }
  assert (Hann : - 100 <= annualized_return (p0 :: rest) tr).
  { unfold annualized_return.
    assert (0 < Rpower (1 + tr / 100) (1 / years (p0 :: rest)))
      by (unfold Rpower; apply exp_pos). lra. }
  assert (Hbound : forall x, - 100 <= x -> - 100 <= round2 x).
  { intros x Hx. replace (- 100) with (IZR (- 10000) / 100) by lra.
    apply round2_ge_hundredths. lra. }
  unfold calculate_metrics. rewrite total_return_ends. fold tr. cbn [bind].
  eexists. split; [reflexivity|].
  cbn [Total_Return Annualized_Return Max_Drawdown Volatility].
  rewrite Hd. cbn [fmap].
  split; [intros tr' H; injection H as <-; now split|].
  split; [intros d1 H; injection H as <-; lra|].
  split; [apply volatility_nonneg|].
  split; [intros t H; injection H as <-; now apply Hbound|].
  split; [intros a H; injection H as <-; now apply Hbound|].
  split.
  - intros d' H. injection H as <-.
    split; [apply Hbound; lra | now apply round2_nonpos].
  - intros v' Hv'. destruct (volatility (p0 :: rest)) as [|v] eqn:Ev;
      [discriminate|].
    cbn [fmap] in Hv'. injection Hv' as <-.
    apply round2_nonneg. now apply (volatility_nonneg (p0 :: rest)).
Qed.

Lemma X8_metric_ranges_witness :
  exists m,
    calculate_metrics [100; 110; 99] "AAPL" = Ok m /\
    (forall tr, total_return [100; 110; 99] = Ok tr ->
       - 100 <= tr /\ - 100 <= annualized_return [100; 110; 99] tr) /\
    (forall d, max_drawdown [100; 110; 99] = Fin d -> - 100 <= d <= 0) /\
    (forall v, volatility [100; 110; 99] = Fin v -> 0 <= v) /\
    (forall t, Total_Return m = Fin t -> - 100 <= t) /\
    (forall a, Annualized_Return m = Fin a -> - 100 <= a) /\
    (forall d', Max_Drawdown m = Fin d' -> - 100 <= d' <= 0) /\
    (forall v', Volatility m = Fin v' -> 0 <= v').
Proof.
  apply (X8_metric_ranges [100; 110; 99] "AAPL").
  - repeat constructor; lra.
  - simpl. lia.
Defined.

(** ** Annualization *)

Lemma exp_le (x y : R) : x <= y -> exp x <= exp y.
Proof.
  intros [Hlt | ->]; [left; now apply exp_increasing | right; reflexivity].
Qed.

Lemma ln_sign (b : R) :
  0 < b -> (1 <= b -> 0 <= ln b) /\ (b <= 1 -> ln b <= 0) /\
           (1 < b -> 0 < ln b) /\ (b < 1 -> ln b < 0).
Proof.
  intros Hb. rewrite <- ln_1. repeat split.
  - intros [H | <-]; [left; apply ln_increasing; lra | right; reflexivity].
  - intros [H | ->]; [left; apply ln_increasing; lra | right; reflexivity].
  - intros H. apply ln_increasing; lra.
  - intros H. apply ln_increasing; lra.
Qed.

Lemma Rpower_vs_one (b e : R) :
  0 < b -> 0 < e ->
  (1 < b -> 1 < Rpower b e) /\ (b < 1 -> Rpower b e < 1).
Proof.
  intros Hb He. destruct (ln_sign b Hb) as [_ [_ [Hgt Hlt]]].
  unfold Rpower. split; intros H; rewrite <- exp_0; apply exp_increasing.
  - specialize (Hgt H). nra.
  - specialize (Hlt H). nra.
Qed.

Lemma Rpower_vs_base (b e : R) :
  0 < b ->
  (1 <= e -> (1 <= b -> b <= Rpower b e) /\ (b <= 1 -> Rpower b e <= b)) /\
  (0 < e <= 1 -> (1 <= b -> Rpower b e <= b) /\ (b <= 1 -> b <= Rpower b e)).
Proof.
  intros Hb. destruct (ln_sign b Hb) as [Hge [Hle _]].
  pose proof (exp_ln b Hb) as Hexp. unfold Rpower.
  split; intros He; split; intros Hb1.
  - specialize (Hge Hb1).
    apply Rle_trans with (exp (ln b)); [rewrite Hexp; lra | apply exp_le; nra].
  - specialize (Hle Hb1).
    apply Rle_trans with (exp (ln b)); [apply exp_le; nra | rewrite Hexp; lra].
  - specialize (Hge Hb1).
    apply Rle_trans with (exp (ln b)); [apply exp_le; nra | rewrite Hexp; lra].
  - specialize (Hle Hb1).
    apply Rle_trans with (exp (ln b)); [rewrite Hexp; lra | apply exp_le; nra].
Qed.

(** X9: for positive prices the annualized return has the sign of the total
    return and equals it for exactly 252 prices; for fewer than 252 prices
    annualization pushes the total return away from zero, for more than 252
    towards zero. *)
Theorem X9_annualization (prices : list R) :
  Forall (Rlt 0) prices -> prices <> [] ->
  exists tr,
    total_return prices = Ok tr /\
    sign (annualized_return prices tr) = sign tr /\
    (List.length prices = 252%nat -> annualized_return prices tr = tr) /\
    ((List.length prices <= 252)%nat ->
       (0 <= tr -> tr <= annualized_return prices tr) /\
       (tr <= 0 -> annualized_return prices tr <= tr)) /\
    ((252 <= List.length prices)%nat ->
       (0 <= tr -> annualized_return prices tr <= tr) /\
       (tr <= 0 -> tr <= annualized_return prices tr)).
Proof.
  intros Hpos Hne. destruct prices as [|p0 rest]; [congruence|].
  assert (Hp0 : 0 < p0) by (inversion Hpos; assumption).
  pose proof (last_positive p0 rest Hpos) as Hlast.
  rewrite total_return_ends.
  set (tr := (last (p0 :: rest) 0 / p0 - 1) * 100).
  exists tr. split; [reflexivity|].
  assert (Hb : 0 < 1 + tr / 100).
  { unfold tr. assert (0 < last (p0 :: rest) 0 / p0)
      by now apply Rdiv_lt_0_compat. lra. }
  set (n := INR (List.length (p0 :: rest))).
  assert (Hn : 1 <= n).
  { unfold n. change 1 with (INR 1). apply le_INR. simpl. lia. }
  assert (He : 1 / years (p0 :: rest) = 252 / n).
  { unfold years, Pandas.len. fold n. field. lra. }
  unfold annualized_return. rewrite He.
  assert (Hepos : 0 < 252 / n) by (apply Rdiv_lt_0_compat; lra).
  destruct (Rpower_vs_one (1 + tr / 100) (252 / n) Hb Hepos) as [Hgt Hlt].
  destruct (Rpower_vs_base (1 + tr / 100) (252 / n) Hb) as [Hshort Hlong].
  set (P := Rpower (1 + tr / 100) (252 / n)) in *.
  split; [|split; [|split]].
  - unfold sign.
    destruct (Rtotal_order tr 0) as [Hneg | [Hzero | Hposi]].
    + assert (P < 1) by (apply Hlt; lra).
      destruct (Rlt_dec ((P - 1) * 100) 0); [|lra].
      destruct (Rlt_dec tr 0); [reflexivity | lra].
    + assert (HP : P = 1).
      { unfold P. replace (1 + tr / 100) with 1 by lra.
        apply Rpower_one_base. }
      rewrite HP, Hzero.
      replace ((1 - 1) * 100) with 0 by lra. reflexivity.
    + assert (1 < P) by (apply Hgt; lra).
      destruct (Rlt_dec ((P - 1) * 100) 0); [lra|].
      destruct (Rlt_dec tr 0); [lra|].
      destruct (Rlt_dec 0 ((P - 1) * 100)); [|lra].
      destruct (Rlt_dec 0 tr); [reflexivity | lra].
  - intros Hlen.
    assert (Hn252 : n = 252).
    { unfold n. rewrite Hlen, INR_IZR_INZ. reflexivity. }
    unfold P. rewrite Hn252.
    replace (252 / 252) with 1 by lra.
    rewrite Rpower_1 by exact Hb. lra.
  - intros Hlen.
    assert (Hn252 : n <= 252).
    { unfold n. rewrite INR_IZR_INZ. apply IZR_le. lia. }
    assert (He1 : 1 <= 252 / n).
    { apply (Rmult_le_reg_r n); [lra|]. unfold Rdiv.
      rewrite Rmult_assoc, Rinv_l by lra. lra. }
    destruct (Hshort He1) as [Hup Hdown].
    split; intros Htr; [assert (1 + tr / 100 <= P) by (apply Hup; lra)
                       | assert (P <= 1 + tr / 100) by (apply Hdown; lra)]; lra.
  - intros Hlen.
    assert (Hn252 : 252 <= n).
    { unfold n. rewrite INR_IZR_INZ. apply IZR_le. lia. }
    assert (He1 : 252 / n <= 1).
    { apply (Rmult_le_reg_r n); [lra|]. unfold Rdiv.
      rewrite Rmult_assoc, Rinv_l by lra. lra. }
    destruct (Hlong (conj Hepos He1)) as [Hdown Hup].
    split; intros Htr; [assert (P <= 1 + tr / 100) by (apply Hdown; lra)
                       | assert (1 + tr / 100 <= P) by (apply Hup; lra)]; lra.
Qed.

Lemma X9_annualization_witness :
  exists tr,
    total_return [100; 101] = Ok tr /\
    sign (annualized_return [100; 101] tr) = sign tr /\
    (List.length [100; 101] = 252%nat -> annualized_return [100; 101] tr = tr) /\
    ((List.length [100; 101] <= 252)%nat ->
       (0 <= tr -> tr <= annualized_return [100; 101] tr) /\
       (tr <= 0 -> annualized_return [100; 101] tr <= tr)) /\
    ((252 <= List.length [100; 101])%nat ->
       (0 <= tr -> annualized_return [100; 101] tr <= tr) /\
       (tr <= 0 -> tr <= annualized_return [100; 101] tr)).
Proof.
  apply (X9_annualization [100; 101]).
  - repeat constructor; lra.
  - discriminate.
Defined.

(** * Properties of the launcher *)

(** ** Strings *)

Lemma upper_char_idempotent (c : ascii) :
  PyStr.upper_char (PyStr.upper_char c) = PyStr.upper_char c.
Proof. destruct c as [[] [] [] [] [] [] [] []]; reflexivity. Qed.

Lemma isspace_upper_char (c : ascii) :
  PyStr.isspace (PyStr.upper_char c) = PyStr.isspace c.
Proof. destruct c as [[] [] [] [] [] [] [] []]; reflexivity. Qed.

Lemma all_chars_append (p : ascii -> bool) (a b : string) :
  PyStr.all_chars p (a ++ b) = (PyStr.all_chars p a && PyStr.all_chars p b)%bool.
Proof.
  induction a as [|c a IH]; [reflexivity|].
  cbn [String.append PyStr.all_chars]. rewrite IH. apply andb_assoc.
Qed.

Lemma is_empty_append_char (a : string) (c : ascii) :
  PyStr.is_empty (a ++ String c EmptyString) = false.
Proof. destruct a; reflexivity. Qed.

(** Every word [split] gives is non-empty, and made of characters of the
    string that are not whitespace. *)
Lemma split_from_words (p : ascii -> bool) (word s : string) :
  PyStr.all_chars (fun c => negb (PyStr.isspace c)) word = true ->
  PyStr.all_chars p word = true -> PyStr.all_chars p s = true ->
  Forall (fun t => PyStr.is_empty t = false /\
                   PyStr.all_chars (fun c => negb (PyStr.isspace c)) t = true /\
                   PyStr.all_chars p t = true)
         (PyStr.split_from word s).
Proof.
  revert word. induction s as [|c s IH]; intros word Hns Hp Hs.
  - cbn [PyStr.split_from]. destruct (PyStr.is_empty word) eqn:E;
      constructor; auto.
  - cbn [PyStr.split_from PyStr.all_chars] in *.
    apply andb_true_iff in Hs as [Hc Hs].
    destruct (PyStr.isspace c) eqn:Esp.
    + destruct (PyStr.is_empty word) eqn:E.
      * apply IH; auto.
      * constructor; [auto|]. apply IH; auto.
    + apply IH; auto; rewrite all_chars_append; cbn [PyStr.all_chars];
        rewrite ?Esp, ?Hc, ?Hns, ?Hp; reflexivity.
Qed.

Lemma split_from_nonempty_word (word s : string) :
  PyStr.is_empty word = false -> PyStr.split_from word s <> [].
Proof.
  revert word. induction s as [|c s IH]; intros word Hw.
  - cbn [PyStr.split_from]. rewrite Hw. discriminate.
  - cbn [PyStr.split_from]. destruct (PyStr.isspace c).
    + rewrite Hw. discriminate.
    + apply IH. apply is_empty_append_char.
Qed.

Lemma lstrip_head (s : string) :
  match PyStr.lstrip s with
  | EmptyString => True
  | String c _ => PyStr.isspace c = false
  end.
Proof.
  induction s as [|c s IH]; [exact I|].
  cbn [PyStr.lstrip]. destruct (PyStr.isspace c) eqn:E; [exact IH | exact E].
Qed.

Lemma rstrip_head (s : string) :
  match s with
  | EmptyString => True
  | String c _ =>
      PyStr.isspace c = false ->
      exists rest, PyStr.rstrip s = String c rest
  end.
Proof.
  destruct s as [|c s]; [exact I|]. intros Hc.
  cbn [PyStr.rstrip]. rewrite Hc.
  destruct (PyStr.rstrip s); eexists; reflexivity.
Qed.

(** A stripped string is empty or starts with a character that is not
    whitespace. *)
Lemma strip_head (s : string) :
  match PyStr.strip s with
  | EmptyString => True
  | String c _ => PyStr.isspace c = false
  end.
Proof.
  unfold PyStr.strip. pose proof (lstrip_head s) as Hl.
  pose proof (rstrip_head (PyStr.lstrip s)) as Hr.
  destruct (PyStr.lstrip s) as [|c l]; [exact I|].
  destruct (Hr Hl) as [rest ->]. exact Hl.
Qed.

Lemma all_chars_upper (s : string) :
  PyStr.all_chars (fun c => Ascii.eqb (PyStr.upper_char c) c) (PyStr.upper s)
  = true.
Proof.
  induction s as [|c s IH]; [reflexivity|].
  cbn [PyStr.upper PyStr.map_chars PyStr.all_chars].
  rewrite upper_char_idempotent, Ascii.eqb_refl. exact IH.
Qed.

(** What [split] gives for an upper-cased, stripped line that is not empty:
    at least one ticker, and only tickers. *)
Lemma split_upper_strip (s : string) :
  PyStr.is_empty (PyStr.upper (PyStr.strip s)) = false ->
  PyStr.split (PyStr.upper (PyStr.strip s)) <> [] /\
  Forall (fun t => PyStr.is_ticker t = true)
         (PyStr.split (PyStr.upper (PyStr.strip s))).
Proof.
  intros Hne. pose proof (strip_head s) as Hhead.
  pose proof (all_chars_upper (PyStr.strip s)) as Hup.
  destruct (PyStr.strip s) as [|c rest]; [discriminate|].
  cbn [PyStr.upper PyStr.map_chars] in *. unfold PyStr.split. split.
  - cbn [PyStr.split_from]. rewrite isspace_upper_char, Hhead.
    apply split_from_nonempty_word. reflexivity.
  - eapply Forall_impl;
      [|apply (split_from_words
                 (fun c => Ascii.eqb (PyStr.upper_char c) c));
        [reflexivity | reflexivity | exact Hup]].
    intros t [He [Hs Hu]]. unfold PyStr.is_ticker.
    now rewrite He, Hs, Hu.
Qed.

(** ** The prompts *)

Lemma get_tickers_sound (stdin rest : list Launcher.key)
  (tickers : list string) :
  Launcher.get_tickers stdin = Launcher.Got tickers rest ->
  tickers <> [] /\
  Forall (fun t => PyStr.is_ticker t = true) tickers /\
  (List.length rest < List.length stdin)%nat.
Proof.
  induction stdin as [|k stdin IH]; [discriminate|].
  destruct k as [s|]; [|discriminate].
  cbn [Launcher.get_tickers].
  destruct (PyStr.is_empty (PyStr.upper (PyStr.strip s))) eqn:E; cbn [negb].
  - intros H. destruct (IH H) as [H1 [H2 H3]].
    repeat split; auto. cbn [List.length]. lia.
  - intros H. injection H as <- <-.
    destruct (split_upper_strip s E) as [H1 H2].
    repeat split; auto.
Qed.

Lemma is_empty_upper (s : string) :
  PyStr.is_empty (PyStr.upper s) = PyStr.is_empty s.
Proof. destruct s; reflexivity. Qed.

(** X11: when [get_tickers] returns, it returns at least one ticker, every
    ticker is non-empty, free of whitespace and of lower-case letters, and
    at least one line has been read; a line of whitespace only is passed
    over and the question asked again. *)
Theorem X11_get_tickers (stdin rest : list Launcher.key)
  (tickers : list string) :
  Launcher.get_tickers stdin = Launcher.Got tickers rest ->
  tickers <> [] /\
  Forall (fun t => PyStr.is_ticker t = true) tickers /\
  (List.length rest < List.length stdin)%nat /\
  (forall s tail, stdin = Launcher.Line s :: tail ->
     PyStr.is_empty (PyStr.strip s) = true ->
     Launcher.get_tickers tail = Launcher.Got tickers rest).
Proof.
  intros H. destruct (get_tickers_sound _ _ _ H) as [H1 [H2 H3]].
  repeat split; try assumption.
  intros s tail -> Hs. cbn [Launcher.get_tickers] in H.
  rewrite is_empty_upper, Hs in H. exact H.
Qed.

Lemma X11_get_tickers_witness :
  Launcher.get_tickers [Launcher.Line "   "; Launcher.Line " aapl  Msft ";
                        Launcher.Line "2020"]
  = Launcher.Got ["AAPL"; "MSFT"]%string [Launcher.Line "2020"] /\
  ["AAPL"; "MSFT"]%string <> [] /\
  Forall (fun t => PyStr.is_ticker t = true) ["AAPL"; "MSFT"]%string.
Proof.
  split; [reflexivity|].
  destruct (X11_get_tickers
              [Launcher.Line "   "; Launcher.Line " aapl  Msft ";
               Launcher.Line "2020"] [Launcher.Line "2020"]
              ["AAPL"; "MSFT"]%string) as [H1 [H2 _]];
    [reflexivity | split; assumption].
Defined.

Lemma get_year_sound (current_year : Z) (default : option Z)
  (stdin rest : list Launcher.key) (year : Z) :
  Launcher.get_year current_year default stdin = Launcher.Got year rest ->
  ((default = Some year /\ year <> 0%Z) \/
   (1900 <= year <= current_year)%Z) /\
  (List.length rest < List.length stdin)%nat.
Proof.
  induction stdin as [|k stdin IH]; [discriminate|].
  destruct k as [s|]; [|discriminate].
  cbn [Launcher.get_year].
  assert (Hparse :
    match PyStr.int (PyStr.strip s) with
    | Some y =>
        if ((1900 <=? y) && (y <=? current_year))%Z
        then Launcher.Got y stdin
        else Launcher.get_year current_year default stdin
    | None => Launcher.get_year current_year default stdin
    end = Launcher.Got year rest ->
    ((default = Some year /\ year <> 0%Z) \/
     (1900 <= year <= current_year)%Z) /\
    (List.length rest < S (List.length stdin))%nat).
  { destruct (PyStr.int (PyStr.strip s)) as [y|].
    - destruct ((1900 <=? y) && (y <=? current_year))%Z eqn:E.
      + intros H. injection H as <- <-.
        apply andb_true_iff in E as [E1 E2].
        apply Z.leb_le in E1, E2. split; [right; lia | lia].
      + intros H. destruct (IH H). split; [assumption | lia].
    - intros H. destruct (IH H). split; [assumption | lia]. }
  cbn [List.length].
  destruct default as [d|]; [|exact Hparse].
  destruct (Launcher.truthy (Some d) && PyStr.is_empty (PyStr.strip s))%bool
    eqn:E; [|exact Hparse].
  intros H. injection H as <- <-.
  apply andb_true_iff in E as [E _]. cbn [Launcher.truthy] in E.
  apply negb_true_iff, Z.eqb_neq in E. split; [left; now split | lia].
Qed.

(** X12: when [get_year] returns, the year is the default it was given or a
    year from 1900 to the current year, and at least one line has been
    read; an empty line takes a non-zero default at once, also when that
    default is outside 1900 to the current year. *)
Theorem X12_get_year (current_year : Z) (default : option Z)
  (stdin rest : list Launcher.key) (year : Z) :
  Launcher.get_year current_year default stdin = Launcher.Got year rest ->
  ((default = Some year /\ year <> 0%Z) \/
   (1900 <= year <= current_year)%Z) /\
  (List.length rest < List.length stdin)%nat /\
  (forall s tail d,
     stdin = Launcher.Line s :: tail -> default = Some d -> d <> 0%Z ->
     PyStr.is_empty (PyStr.strip s) = true ->
     year = d /\ rest = tail).
Proof.
  intros H. destruct (get_year_sound _ _ _ _ _ H) as [Hrange Hlen].
  split; [exact Hrange|]. split; [exact Hlen|].
  intros s tail d -> -> Hd Hs. cbn [Launcher.get_year] in H.
  rewrite Hs in H. cbn [Launcher.truthy] in H.
  apply Z.eqb_neq in Hd. rewrite Hd in H. cbn in H.
  injection H as <- <-. now split.
Qed.

Lemma X12_get_year_witness :
  Launcher.get_year 2026 (Some 2021%Z)
    [Launcher.Line "abc"; Launcher.Line "1850"; Launcher.Line " 2_024 "]
  = Launcher.Got 2024%Z [] /\
  ((Some 2021%Z = Some 2024%Z /\ 2024%Z <> 0%Z) \/
   (1900 <= 2024 <= 2026)%Z).
Proof.
  split; [reflexivity|].
  apply (X12_get_year 2026 (Some 2021%Z)
           [Launcher.Line "abc"; Launcher.Line "1850";
            Launcher.Line " 2_024 "] []).
  reflexivity.
Defined.

Lemma get_index_sound (stdin rest : list Launcher.key)
  (index : option string) :
  Launcher.get_index stdin = Launcher.Got index rest ->
  (index = None \/ exists i, index = Some (index_label i)) /\
  (List.length rest < List.length stdin)%nat.
Proof.
  intros H. split.
  - revert H. induction stdin as [|k stdin IH]; [discriminate|].
    destruct k as [s|]; [|discriminate].
    cbn [Launcher.get_index]. unfold Launcher.indices.
    repeat match goal with
           | |- context [String.eqb ?a ?b] => destruct (String.eqb a b)
           end;
      try (intros H; injection H as <- <-);
      try exact IH; try (now left); right.
    + now exists SP500.
    + now exists NASDAQ.
    + now exists DOW.
    + now exists RUSSELL2000.
  - revert H. induction stdin as [|k stdin IH]; [discriminate|].
    destruct k as [s|]; [|discriminate].
    cbn [Launcher.get_index List.length].
    destruct (Launcher.indices _).
    + intros H. injection H as <- <-. lia.
    + intros H. specialize (IH H). lia.
Qed.

(** X13: when [get_index] returns, it returns no index or one of the four
    names the backtester accepts for [--index]; an empty line chooses the
    S&P 500; at least one line has been read. *)
Theorem X13_get_index (stdin rest : list Launcher.key)
  (index : option string) :
  Launcher.get_index stdin = Launcher.Got index rest ->
  (index = None \/ exists i, index = Some (index_label i)) /\
  (List.length rest < List.length stdin)%nat /\
  (forall s tail, stdin = Launcher.Line s :: tail ->
                  PyStr.is_empty (PyStr.strip s) = true ->
                  index = Some (index_label SP500) /\ rest = tail).
Proof.
  intros H. destruct (get_index_sound _ _ _ H) as [H1 H2].
  split; [exact H1|]. split; [exact H2|].
  intros s tail -> Hs. cbn [Launcher.get_index] in H.
  rewrite Hs in H. cbn in H. injection H as <- <-. now split.
Qed.

Lemma X13_get_index_witness :
  Launcher.get_index [Launcher.Line "7"; Launcher.Line " 3 "]
  = Launcher.Got (Some "DOW"%string) [] /\
  (Some "DOW"%string = None \/ exists i, Some "DOW"%string = Some (index_label i)).
Proof.
  split; [reflexivity|].
  apply (X13_get_index [Launcher.Line "7"; Launcher.Line " 3 "] []).
  reflexivity.
Defined.

(** ** The date range *)

Lemma get_end_year_sound (current_year : Z) (turns : nat) (start_year : Z)
  (stdin rest : list Launcher.key) (end_year : Z) :
  Launcher.get_end_year current_year turns start_year stdin
  = Some (Launcher.Got end_year rest) ->
  (start_year <= end_year)%Z /\
  ((end_year = current_year - 1)%Z \/ (1900 <= end_year <= current_year)%Z) /\
  (List.length rest < List.length stdin)%nat.
Proof.
  revert stdin. induction turns as [|turns IH]; intros stdin; [discriminate|].
  cbn [Launcher.get_end_year].
  destruct (Launcher.get_year current_year (Some (current_year - 1)%Z) stdin)
    as [y r|e] eqn:E; [|discriminate].
  apply get_year_sound in E as [Hy Hlen].
  destruct (start_year <=? y)%Z eqn:Ele.
  - intros H. injection H as <- <-. apply Z.leb_le in Ele.
    split; [exact Ele|]. split; [|exact Hlen].
    destruct Hy as [[Hd _] | Hr]; [left; congruence | now right].
  - intros H. destruct (IH r H) as [H1 [H2 H3]].
    repeat split; auto; lia.
Qed.

(** The bound on the turns of the end-year loop is never reached. *)
Lemma get_end_year_bound (current_year : Z) (turns : nat) (start_year : Z)
  (stdin : list Launcher.key) :
  (List.length stdin < turns)%nat ->
  Launcher.get_end_year current_year turns start_year stdin <> None.
Proof.
  revert stdin. induction turns as [|turns IH]; intros stdin Hlen; [lia|].
  cbn [Launcher.get_end_year].
  destruct (Launcher.get_year current_year (Some (current_year - 1)%Z) stdin)
    as [y r|e] eqn:E; [|discriminate].
  apply get_year_sound in E as [_ Hr].
  destruct (start_year <=? y)%Z; [discriminate|].
  apply IH. lia.
Qed.

Lemma get_date_range_sound (current_year : Z)
  (stdin rest : list Launcher.key) (start_year end_year : Z) :
  (1905 <= current_year)%Z ->
  Launcher.get_date_range current_year stdin
  = Launcher.Got (start_year, end_year) rest ->
  (1900 <= start_year <= end_year)%Z /\ (end_year <= current_year)%Z /\
  (List.length rest < List.length stdin)%nat.
Proof.
  intros Hcy. unfold Launcher.get_date_range.
  destruct (Launcher.get_year current_year (Some (current_year - 5)%Z) stdin)
    as [s0 r0|e] eqn:E0; [|discriminate].
  apply get_year_sound in E0 as [Hs0 Hlen0].
  destruct (Launcher.get_end_year current_year (S (List.length r0)) s0 r0)
    as [[e1 r1|e]|] eqn:E1; try discriminate.
  apply get_end_year_sound in E1 as [Hle [He1 Hlen1]].
  intros H. injection H as -> -> ->.
  assert (Hs : (1900 <= start_year <= current_year)%Z).
  { destruct Hs0 as [[Hd _] | Hr]; [injection Hd as <-; lia | exact Hr]. }
  assert (He : (end_year <= current_year)%Z).
  { destruct He1 as [-> | Hr]; lia. }
  repeat split; lia.
Qed.

(** X14: when [get_date_range] returns, the end year is not before the
    start year; from the year 1905 on, both lie between 1900 and the current
    year, so a start year equal to the current year leaves the current year
    as the only end year accepted, the offered default (the year before)
    being refused.  The end-year question is asked again and again until
    then, each time reading a line, so the bound on its turns is never
    reached. *)
Theorem X14_get_date_range (current_year : Z)
  (stdin rest : list Launcher.key) (start_year end_year : Z) :
  (1905 <= current_year)%Z ->
  Launcher.get_date_range current_year stdin
  = Launcher.Got (start_year, end_year) rest ->
  (1900 <= start_year <= end_year)%Z /\ (end_year <= current_year)%Z /\
  (start_year = current_year -> end_year = current_year) /\
  (List.length rest < List.length stdin)%nat /\
  (forall start tail,
     Launcher.get_end_year current_year (S (List.length tail)) start tail
     <> None).
Proof.
  intros Hcy H.
  destruct (get_date_range_sound _ _ _ _ _ Hcy H) as [H1 [H2 H3]].
  repeat split; try lia.
  intros start tail. apply get_end_year_bound. lia.
Qed.

Lemma X14_get_date_range_witness :
  Launcher.get_date_range 2026
    [Launcher.Line "2026"; Launcher.Line ""; Launcher.Line "2026"]
  = Launcher.Got (2026, 2026)%Z [] /\
  (1900 <= 2026 <= 2026)%Z /\ (2026 <= 2026)%Z.
Proof.
  split; [reflexivity|].
  destruct (X14_get_date_range 2026
              [Launcher.Line "2026"; Launcher.Line ""; Launcher.Line "2026"]
              [] 2026 2026) as [H1 [H2 _]];
    [lia | reflexivity | split; assumption].
Defined.

(** ** Years written and read back *)

Lemma parse_digits_pos (d : Decimal.uint) (acc : positive) :
  PyStr.parse_digits (Z.pos acc) true (NilEmpty.string_of_uint d)
  = Some (Z.pos (Pos.of_uint_acc d acc)).
Proof.
  revert acc. induction d as [|d IH|d IH|d IH|d IH|d IH|d IH|d IH|d IH|d IH|d IH];
    intros acc; [reflexivity|..];
    cbn [NilEmpty.string_of_uint PyStr.parse_digits Pos.of_uint_acc];
    match goal with
    | |- context [PyStr.digit_value ?c] =>
        let v := eval vm_compute in (PyStr.digit_value c) in
        change (PyStr.digit_value c) with v
    end; cbv iota;
    rewrite <- IH; f_equal; lia.
Qed.

Lemma parse_digits_zero (d : Decimal.uint) (after_digit : bool) :
  d <> Decimal.Nil \/ after_digit = true ->
  PyStr.parse_digits 0 after_digit (NilEmpty.string_of_uint d)
  = Some (Z.of_N (Pos.of_uint d)).
Proof.
  revert after_digit.
  induction d as [|d IH|d IH|d IH|d IH|d IH|d IH|d IH|d IH|d IH|d IH];
    intros after_digit Hd.
  - destruct Hd as [Hd | ->]; [congruence | reflexivity].
  - cbn [NilEmpty.string_of_uint PyStr.parse_digits Pos.of_uint].
    change (PyStr.digit_value "0") with (Some 0%Z). cbv iota.
    change (10 * 0 + 0)%Z with 0%Z. apply IH. now right.
  - apply (parse_digits_pos d 1).
  - apply (parse_digits_pos d 2).
  - apply (parse_digits_pos d 3).
  - apply (parse_digits_pos d 4).
  - apply (parse_digits_pos d 5).
  - apply (parse_digits_pos d 6).
  - apply (parse_digits_pos d 7).
  - apply (parse_digits_pos d 8).
  - apply (parse_digits_pos d 9).
Qed.

Lemma lstrip_no_space (s : string) :
  PyStr.all_chars (fun c => negb (PyStr.isspace c)) s = true ->
  PyStr.lstrip s = s.
Proof.
  destruct s as [|c s]; [reflexivity|]. cbn [PyStr.all_chars PyStr.lstrip].
  intros H. apply andb_true_iff in H as [H _].
  apply negb_true_iff in H. now rewrite H.
Qed.

Lemma rstrip_no_space (s : string) :
  PyStr.all_chars (fun c => negb (PyStr.isspace c)) s = true ->
  PyStr.rstrip s = s.
Proof.
  induction s as [|c s IH]; [reflexivity|]. cbn [PyStr.all_chars PyStr.rstrip].
  intros H. apply andb_true_iff in H as [Hc Hs].
  apply negb_true_iff in Hc. rewrite (IH Hs), Hc. now destruct s.
Qed.

(** A string without whitespace is its own stripping. *)
Lemma strip_no_space (s : string) :
  PyStr.all_chars (fun c => negb (PyStr.isspace c)) s = true ->
  PyStr.strip s = s.
Proof.
  intros H. unfold PyStr.strip.
  rewrite (lstrip_no_space s H). now apply rstrip_no_space.
Qed.

Lemma string_of_uint_no_space (d : Decimal.uint) :
  PyStr.all_chars (fun c => negb (PyStr.isspace c))
                  (NilEmpty.string_of_uint d) = true.
Proof.
  induction d; cbn [NilEmpty.string_of_uint PyStr.all_chars];
    [reflexivity | rewrite IHd; reflexivity ..].
Qed.

Lemma int_of_digits (d : Decimal.uint) :
  d <> Decimal.Nil ->
  PyStr.int (NilEmpty.string_of_uint d) = Some (Z.of_N (Pos.of_uint d)) /\
  PyStr.int (String "-" (NilEmpty.string_of_uint d))
  = Some (- Z.of_N (Pos.of_uint d))%Z.
Proof.
  intros Hd.
  pose proof (parse_digits_zero d false (or_introl Hd)) as Hparse.
  pose proof (string_of_uint_no_space d) as Hns.
  split.
  - unfold PyStr.int. rewrite (strip_no_space _ Hns).
    destruct d; [congruence | exact Hparse ..].
  - unfold PyStr.int. rewrite strip_no_space.
    + rewrite Hparse. reflexivity.
    + cbn [PyStr.all_chars]. rewrite Hns. reflexivity.
Qed.

Lemma int_str (n : Z) : PyStr.int (PyStr.str n) = Some n.
Proof.
  unfold PyStr.str. destruct n as [|p|p]; [reflexivity| |].
  - cbn [Z.to_int NilZero.string_of_int].
    pose proof (Unsigned.to_uint_nonnil p) as Hnil.
    destruct (int_of_digits (Pos.to_uint p) Hnil) as [Hpos _].
    rewrite Unsigned.of_to in Hpos.
    unfold NilZero.string_of_uint.
    destruct (Pos.to_uint p); [congruence | exact Hpos ..].
  - cbn [Z.to_int NilZero.string_of_int].
    pose proof (Unsigned.to_uint_nonnil p) as Hnil.
    destruct (int_of_digits (Pos.to_uint p) Hnil) as [_ Hneg].
    rewrite Unsigned.of_to in Hneg.
    unfold NilZero.string_of_uint.
    destruct (Pos.to_uint p); [congruence | exact Hneg ..].
Qed.

(** X15: a year written by [str], as the launcher puts it on the command
    line, is read back by [int], as the backtester's [type=int] does, to the
    same integer, whatever the integer, also with whitespace around it; so
    two different integers are never written the same way. *)
Theorem X15_int_of_str (n : Z) :
  PyStr.int (PyStr.str n) = Some n /\
  PyStr.int (" " ++ PyStr.str n ++ " ") = Some n /\
  (forall m, PyStr.str n = PyStr.str m -> n = m).
Proof.
  pose proof (int_str n) as Hn. split; [exact Hn|]. split.
  - unfold PyStr.int in *.
    assert (Hstrip : PyStr.strip (" " ++ PyStr.str n ++ " ")
                     = PyStr.strip (PyStr.str n)).
    { unfold PyStr.strip. cbn [String.append PyStr.lstrip].
      change (PyStr.isspace " ") with true. cbv iota.
      assert (Hr : forall s, PyStr.rstrip (s ++ " ") = PyStr.rstrip s).
      { induction s as [|c s IH]; [reflexivity|].
        cbn [String.append PyStr.rstrip]. now rewrite IH. }
      assert (Hl : forall s, PyStr.lstrip (s ++ " ")
                             = match PyStr.lstrip s with
                               | EmptyString => EmptyString
                               | kept => (kept ++ " ")%string
                               end).
      { induction s as [|c s IH]; [reflexivity|].
        cbn [String.append PyStr.lstrip].
        destruct (PyStr.isspace c); [exact IH | reflexivity]. }
      rewrite Hl. destruct (PyStr.lstrip (PyStr.str n)) eqn:E;
        [reflexivity | apply Hr]. }
    rewrite Hstrip. exact Hn.
  - intros m Hm. pose proof (int_str m) as Hm'.
    rewrite <- Hm, Hn in Hm'. now injection Hm'.
Qed.

(** ** Confirmation and launch *)

Section LaunchFacts.

Variables python backtester_path : string.
Variable run : list string -> Launcher.run_result.



End LaunchFacts.


(** ** The names of the output files *)

Lemma append_separator_inj (sep : ascii) (a a' b b' : string) :
  PyStr.all_chars (fun c => negb (Ascii.eqb c sep)) a = true ->
  PyStr.all_chars (fun c => negb (Ascii.eqb c sep)) a' = true ->
  (a ++ String sep b = a' ++ String sep b')%string ->
  a = a' /\ b = b'.
Proof.
  revert a'. induction a as [|c a IH]; intros a' Ha Ha' H.
  - destruct a' as [|c' a']; cbn [String.append] in H.
    + injection H as <-. now split.
    + injection H as <- _. cbn [PyStr.all_chars] in Ha'.
      rewrite Ascii.eqb_refl in Ha'. discriminate.
  - destruct a' as [|c' a']; cbn [String.append] in H.
    + injection H as -> _. cbn [PyStr.all_chars] in Ha.
      rewrite Ascii.eqb_refl in Ha. discriminate.
    + injection H as <- H. cbn [PyStr.all_chars] in Ha, Ha'.
      apply andb_true_iff in Ha as [_ Ha], Ha' as [_ Ha'].
      destruct (IH a' Ha Ha' H) as [-> ->]. now split.
Qed.

(** [str] writes digits and a minus sign only. *)
Lemma str_chars (n : Z) (sep : ascii) :
  sep = "_"%char \/ sep = "."%char ->
  PyStr.all_chars (fun c => negb (Ascii.eqb c sep)) (PyStr.str n) = true.
Proof.
  intros Hsep.
  assert (Hu : forall d,
    PyStr.all_chars (fun c => negb (Ascii.eqb c sep))
                    (NilEmpty.string_of_uint d) = true).
  { induction d; cbn [NilEmpty.string_of_uint PyStr.all_chars];
      [reflexivity | rewrite IHd; destruct Hsep as [-> | ->]; reflexivity ..]. }
  assert (Hz : forall d,
    PyStr.all_chars (fun c => negb (Ascii.eqb c sep))
                    (NilZero.string_of_uint d) = true).
  { intros d. unfold NilZero.string_of_uint.
    destruct d; try apply Hu. destruct Hsep as [-> | ->]; reflexivity. }
  unfold PyStr.str. destruct (Z.to_int n) as [d | d];
    cbn [NilZero.string_of_int PyStr.all_chars]; rewrite Hz;
    destruct Hsep as [-> | ->]; reflexivity.
Qed.

Lemma years_of_filename (a a' b b' ext : string) (sa sb sa' sb' : Z) :
  a = PyStr.str sa -> a' = PyStr.str sa' ->
  b = PyStr.str sb -> b' = PyStr.str sb' ->
  (a ++ "_" ++ b ++ String "." ext = a' ++ "_" ++ b' ++ String "." ext)%string ->
  sa = sa' /\ sb = sb'.
Proof.
  intros -> -> -> -> H.
  apply (append_separator_inj "_") in H as [Ha H];
    try (apply str_chars; now left).
  apply (append_separator_inj ".") in H as [Hb _];
    try (apply str_chars; now right).
  pose proof (int_str sa) as E1. pose proof (int_str sb) as E2.
  rewrite Ha, int_str in E1. rewrite Hb, int_str in E2.
  split; congruence.
Qed.

(** X18: the table and the chart of a run never go to the same file name,
    and runs over different year ranges never share a table file or a chart
    file: the name determines both years. *)
Theorem X18_output_file_names (s e s' e' : Z) :
  csv_filename s e <> chart_filename s' e' /\
  (csv_filename s e = csv_filename s' e' -> s = s' /\ e = e') /\
  (chart_filename s e = chart_filename s' e' -> s = s' /\ e = e').
Proof.
  unfold csv_filename, chart_filename. split; [|split].
  - cbn [String.append]. discriminate.
  - cbn [String.append]. intros H.
    repeat match type of H with
           | String ?c _ = String ?c _ => injection H as H
           end.
    eapply (years_of_filename _ _ _ _ "csv"); try reflexivity. exact H.
  - cbn [String.append]. intros H.
    repeat match type of H with
           | String ?c _ = String ?c _ => injection H as H
           end.
    eapply (years_of_filename _ _ _ _ "png"); try reflexivity. exact H.
Qed.
